(** * Package [web]: retrying HTTP client (client.go)

    A shallow embedding of [ShouldRetry], [IsTimeoutErr], [Backoff.Next],
    [RequestWithClose] and [client.Do], and the properties of the retry
    loop, the backoff generator and the two classifiers.

    Go's [int] is taken at its 64-bit width (amd64, arm64); every
    arithmetic operation of the source on an [int] is written with its
    two's-complement wrap-around. *)

From Stdlib Require Import ZArith List Bool Lia String.
Import ListNotations.
Local Open Scope Z_scope.

(** ** Go's [int] *)

Module GoInt.

Definition min_int : Z := - 2 ^ 63.
Definition max_int : Z := 2 ^ 63 - 1.

(** The value of type [int] that a mathematical integer wraps to. *)
Definition wrap (z : Z) : Z := (z + 2 ^ 63) mod 2 ^ 64 - 2 ^ 63.

Definition in_int (z : Z) : Prop := min_int <= z <= max_int.

Definition add (x y : Z) : Z := wrap (x + y).
Definition sub (x y : Z) : Z := wrap (x - y).
Definition mul (x y : Z) : Z := wrap (x * y).

End GoInt.

(** ** Errors

    An [error] interface value is nil ([None]) or holds a dynamic value.
    [IsTimeoutErr] only asks whether that value implements [net.Error]
    and, if so, what its [Timeout] method answers.  The methods are
    taken to return: a nil pointer inside a non-nil interface, on which
    [Timeout] would dereference nil, is not represented. *)

Inductive error : Type :=
| PlainError (msg : string)
    (* errors.New(msg) and every other type without the net.Error methods *)
| NetError (msg : string) (timeout temporary : bool).
    (* a value implementing net.Error; Timeout() and Temporary() answers *)

(** The type assertion [e.(net.Error)]: the asserted value and [ok]. *)
Definition as_net_Error (e : option error) : option (string * bool * bool) :=
  match e with
  | Some (NetError msg timeout temporary) => Some (msg, timeout, temporary)
  | _ => None
  end.

Definition Timeout (ne : string * bool * bool) : bool := snd (fst ne).

(** ** The two classifiers *)

Definition StatusRequestTimeout : Z := 408.

Definition ShouldRetry (statusCode : Z) : bool :=
  (statusCode =? StatusRequestTimeout) ||
  ((statusCode >=? 500) && (statusCode <=? 599)).

Definition IsTimeoutErr (e : option error) : bool :=
  match as_net_Error e with
  | Some err => Timeout err
  | None => false
  end.

(** ** Backoff *)

Record Backoff : Type := { BaseSleep : Z; MaxSleep : Z }.

(** [rand.Intn(n)]: panics ([None]) when [n <= 0], otherwise reduces the
    generator's raw output into [[0, n)]. *)
Definition Intn (raw n : Z) : option Z :=
  if n <=? 0 then None else Some (raw mod n).

(** [b.Next(previous)], with [raw] the raw output the random source
    delivers to this call. *)
Definition Next (b : Backoff) (raw : Z) (previous : Z) : option Z :=
  let diff := GoInt.sub (GoInt.mul previous 3) (BaseSleep b) in
  let diff := if diff <=? 0 then 1 else diff in
  match Intn raw diff with
  | None => None
  | Some r =>
      let sleep := GoInt.add r (BaseSleep b) in
      if sleep >? MaxSleep b then Some (MaxSleep b) else Some sleep
  end.

(** The algorithm as the specification words it, over the mathematical
    integers: the spread, and the delay obtained from the integer [r]
    drawn in [[0, spread)]. *)
Definition spread_spec (b : Backoff) (previous : Z) : Z :=
  let spread := previous * 3 - BaseSleep b in
  if spread <=? 0 then 1 else spread.

Definition Next_spec (b : Backoff) (r : Z) : Z :=
  let candidate := r + BaseSleep b in
  if candidate >? MaxSleep b then MaxSleep b else candidate.

(** ** The HTTP client and the world it talks to

    [W] is the state of everything outside the program (network, servers,
    the content of streams); [B] are request body streams
    ([io.ReadCloser] values) and [R] response body streams. *)

Section Client.

Context {W B R : Type}.

(** The fields of [http.Request] that [Do] reads or writes.  [GetBody]
    returns a stream and an error, and may act on the world. *)
Record Request : Type := {
  Body : option B;
  GetBody : option (W -> (option B * option error) * W)
}.

Record Response : Type := { StatusCode : Z; RespBody : R }.

(** What the [Do] method of [http.Client] hands back: a response and a
    nil error, or a non-nil error (with a response only when
    CheckRedirect fails). *)
Inductive RoundTrip : Type :=
| Answered (resp : Response)
| Failed (resp : option Response) (err : error).

Record HTTPClient : Type := {
  cl_Do : Request -> W -> RoundTrip * W;
  ReadAll : R -> W -> (list Byte.byte * option error) * W;
  Close : R -> W -> W
}.

(** The named results [(status, body, err)]; a nil slice is [None]. *)
Record Result : Type := {
  status : Z;
  body : option (list Byte.byte);
  err : option error
}.

Definition zero_Result : Result :=
  {| status := 0; body := None; err := None |}.

Definition RequestWithClose (cl : HTTPClient) (req : Request) (w : W)
  : Result * W :=
  let '(rt, w) := cl_Do cl req w in
  match rt with
  | Failed resp e =>
      (* err != nil: return at once; the deferred Close runs iff resp != nil *)
      let w := match resp with
               | Some r => Close cl (RespBody r) w
               | None => w
               end in
      ({| status := 0; body := None; err := Some e |}, w)
  | Answered resp =>
      let '((bs, e), w) := ReadAll cl (RespBody resp) w in
      let w := Close cl (RespBody resp) w in
      ({| status := StatusCode resp; body := Some bs; err := e |}, w)
  end.

Record client : Type := {
  timeoutOnly : bool;
  cl : HTTPClient;
  bk : Backoff
}.

(** Everything a call of [Do] acts on besides its own variables: the
    world, the raw outputs the random source has yet to deliver, and two
    traces kept for the statements below (newest entry first): the
    durations handed to [time.Sleep] and the requests handed to
    [RequestWithClose] with what it returned. *)
Record Env : Type := {
  world : W;
  rand : nat -> Z;
  slept : list Z;
  sent : list (Request * Result)
}.

(** The variables of [Do] at the head of the loop. *)
Record loop_state : Type := {
  tries : Z;
  res : Result;
  wait : Z;
  req : Request;
  env : Env
}.

(** What the caller sees when [Do] returns. *)
Record outcome : Type := {
  o_tries : Z;
  o_res : Result;
  o_req : Request;
  o_env : Env
}.

Inductive step_result : Type :=
| Running (s : loop_state)
| Returned (o : outcome)
| Panicked.

Definition Millisecond : Z := 1000000.

(** Lines 133-135: the forced reset of [req.Body]. *)
Definition reset_body (tries : Z) (rq : Request) (w : W) : Request * W :=
  match Body rq, GetBody rq with
  | Some _, Some get =>
      if tries >? 1 then
        let '((b, _), w) := get w in
        ({| Body := b; GetBody := GetBody rq |}, w)
      else (rq, w)
  | _, _ => (rq, w)
  end.

(** Lines 127-137: sleep, next wait, body reset and the request; the
    counter is left as it is. *)
Definition attempt (c : client) (s : loop_state) : option loop_state :=
  let e := env s in
  let slept' := GoInt.mul (wait s) Millisecond :: slept e in
  match Next (bk c) (rand e 0%nat) (wait s) with
  | None => None
  | Some wait' =>
      let '(rq, w) := reset_body (tries s) (req s) (world e) in
      let '(r, w) := RequestWithClose (cl c) rq w in
      Some {| tries := tries s; res := r; wait := wait'; req := rq;
              env := {| world := w;
                        rand := fun n => rand e (S n);
                        slept := slept';
                        sent := (rq, r) :: sent e |} |}
  end.

(** Lines 138-149: [true] for the two [continue]s, [false] for the two
    [return]s. *)
Definition retry_verdict (c : client) (r : Result) : bool :=
  match err r with
  | Some e => negb (timeoutOnly c) || IsTimeoutErr (Some e)
  | None => ShouldRetry (status r)
  end.

Definition returning (t : Z) (s : loop_state) : outcome :=
  {| o_tries := t; o_res := res s; o_req := req s; o_env := env s |}.

Definition next_try (s : loop_state) : loop_state :=
  {| tries := GoInt.add (tries s) 1; res := res s; wait := wait s;
     req := req s; env := env s |}.

(** One turn of the [for] loop, from its condition to the post statement
    [tries++], or out of the loop through [tries--; return]. *)
Definition iteration (c : client) (maxTries : Z) (s : loop_state)
  : step_result :=
  if tries s <=? maxTries then
    match attempt c s with
    | None => Panicked
    | Some s' =>
        if retry_verdict c (res s') then Running (next_try s')
        else Returned (returning (tries s') s')
    end
  else Returned (returning (GoInt.sub (tries s) 1) s).

(** [fuel] turns of the loop; [Running s] when the loop is still going
    after them. *)
Fixpoint run (fuel : nat) (c : client) (maxTries : Z) (s : loop_state)
  : step_result :=
  match fuel with
  | O => Running s
  | S fuel =>
      match iteration c maxTries s with
      | Running s' => run fuel c maxTries s'
      | r => r
      end
  end.

Definition entry (rq : Request) (w : W) (rnd : nat -> Z) : loop_state :=
  {| tries := 1; res := zero_Result; wait := 0; req := rq;
     env := {| world := w; rand := rnd; slept := []; sent := [] |} |}.

Definition Do (fuel : nat) (c : client) (rq : Request) (maxTries : Z)
  (w : W) (rnd : nat -> Z) : step_result :=
  run fuel c maxTries (entry rq w rnd).

(** Functional options and the constructor.  [dflt] stands for the
    [http.Client] with the 5s timeout that [NewClient] starts from. *)
Definition ClientOption : Type := client -> client.

Definition TimeoutOnly : ClientOption :=
  fun c => {| timeoutOnly := true; cl := cl c; bk := bk c |}.

Definition WithHTTPClient (h : HTTPClient) : ClientOption :=
  fun c => {| timeoutOnly := timeoutOnly c; cl := h; bk := bk c |}.

Definition WithBackoff (b : Backoff) : ClientOption :=
  fun c => {| timeoutOnly := timeoutOnly c; cl := cl c; bk := b |}.

Definition NewClient (dflt : HTTPClient) (ops : list ClientOption) : client :=
  fold_left (fun c op => op c) ops
    {| timeoutOnly := false; cl := dflt;
       bk := {| BaseSleep := 100; MaxSleep := 5000 |} |}.

(** The number of requests a call has issued. *)
Definition sends (o : outcome) : Z := Z.of_nat (List.length (sent (o_env o))).

End Client.

Arguments Request : clear implicits.
Arguments Response : clear implicits.
Arguments RoundTrip : clear implicits.
Arguments HTTPClient : clear implicits.
Arguments client : clear implicits.
Arguments Env : clear implicits.
Arguments loop_state : clear implicits.
Arguments outcome : clear implicits.
Arguments step_result : clear implicits.
Arguments ClientOption : clear implicits.

(** ** Concrete clients, mirroring the handlers of the test suite *)

Module Fixtures.

(** The worlds below only count the requests received. *)

(** A server answering every request with [code] and an empty body. *)
Definition always_status {B : Type} (code : Z) : HTTPClient Z B unit :=
  {| cl_Do := fun _ w =>
       (Answered {| StatusCode := code; RespBody := tt |}, w + 1);
     ReadAll := fun _ w => (([], None), w);
     Close := fun _ w => w |}.

(** A transport failing every request with [e]. *)
Definition always_fails {B : Type} (e : error) : HTTPClient Z B unit :=
  {| cl_Do := fun _ w => (Failed None e, w + 1);
     ReadAll := fun _ w => (([], None), w);
     Close := fun _ w => w |}.

(** A server answering 500 to its first [n] requests and 200 afterwards. *)
Definition recovers_after {B : Type} (n : Z) : HTTPClient Z B unit :=
  {| cl_Do := fun _ w =>
       (Answered {| StatusCode := if w <? n then 500 else 200;
                    RespBody := tt |}, w + 1);
     ReadAll := fun _ w => (([], None), w);
     Close := fun _ w => w |}.

Definition get_request : Request Z unit :=
  {| Body := None; GetBody := None |}.

(** A POST whose body streams are numbered by the world's counter. *)
Definition post_request : Request Z Z :=
  {| Body := Some 0;
     GetBody := Some (fun w => ((Some (w + 1000), None), w)) |}.

(** The [Backoff] of [NewClient()]. *)
Definition default_backoff : Backoff :=
  {| BaseSleep := 100; MaxSleep := 5000 |}.

Definition no_jitter : nat -> Z := fun _ => 0.

End Fixtures.

(** ** Options as written at a call of [NewClient]

    The three option constructors of the package, as data, so that a
    list of them can be inspected. *)

Section OptionCalls.

Context {W B R : Type}.

Inductive option_call : Type :=
| CallTimeoutOnly
| CallWithHTTPClient (h : HTTPClient W B R)
| CallWithBackoff (b : Backoff).

Definition to_option (k : option_call) : ClientOption W B R :=
  match k with
  | CallTimeoutOnly => TimeoutOnly
  | CallWithHTTPClient h => WithHTTPClient h
  | CallWithBackoff b => WithBackoff b
  end.

Definition is_WithBackoff (k : option_call) : bool :=
  match k with CallWithBackoff _ => true | _ => false end.

Definition is_WithHTTPClient (k : option_call) : bool :=
  match k with CallWithHTTPClient _ => true | _ => false end.

Definition is_TimeoutOnly (k : option_call) : bool :=
  match k with CallTimeoutOnly => true | _ => false end.

End OptionCalls.

Arguments option_call : clear implicits.

(** ** A transport that counts the response bodies it opens and closes *)

Module Tracking.

Record counters : Type := { opened : Z; closed : Z; served : Z }.

(** Answers 503 to its first [n] requests, fails the next one with a
    redirect error that carries a response, and answers 200 afterwards;
    reading the 200 body fails half way. *)
Definition flaky {B : Type} (n : Z) : HTTPClient counters B unit :=
  {| cl_Do := fun _ w =>
       let w' := {| opened := opened w + 1; closed := closed w;
                    served := served w + 1 |} in
       if served w <? n then
         (Answered {| StatusCode := 503; RespBody := tt |}, w')
       else if served w =? n then
         (Failed (Some {| StatusCode := 302; RespBody := tt |})
                 (PlainError "stopped after 10 redirects"), w')
       else (Answered {| StatusCode := 200; RespBody := tt |}, w');
     ReadAll := fun _ w =>
       (([], if served w <=? n then None
             else Some (PlainError "unexpected EOF")), w);
     Close := fun _ w =>
       {| opened := opened w; closed := closed w + 1; served := served w |} |}.

(** A transport that cannot connect: no response, nothing opened. *)
Definition unreachable {B : Type} : HTTPClient counters B unit :=
  {| cl_Do := fun _ w =>
       (Failed None (NetError "dial tcp: i/o timeout" true true),
        {| opened := opened w; closed := closed w; served := served w + 1 |});
     ReadAll := fun _ w => (([], None), w);
     Close := fun _ w =>
       {| opened := opened w; closed := closed w + 1; served := served w |} |}.

Definition fresh : counters := {| opened := 0; closed := 0; served := 0 |}.

Definition plain_get : Request counters unit :=
  {| Body := None; GetBody := None |}.

(** A POST whose [GetBody] fails at its second call, handing back nil. *)
Definition fragile_post : Request counters Z :=
  {| Body := Some 0;
     GetBody := Some (fun w =>
       if served w <? 2 then ((Some (served w), None), w)
       else ((None, Some (PlainError "body gone")), w)) |}.

End Tracking.

(** ** Package [semaphore]

    [semaphore] wraps a buffered channel of empty structs; only the
    number of queued elements and the capacity of the channel matter.
    The operations are given for sequential use: no other goroutine
    sends to or receives from the channel while a method runs. *)

Module Semaphore.

Record semaphore : Type := {
  sem_len : Z;      (* len(s.sem) *)
  sem_cap : Z;      (* cap(s.sem) *)
  closed : bool
}.

(** What the [Done] channel of the context does while [Obtain] sits in
    its [select]. *)
Inductive done_channel : Type :=
| NeverDone       (* nil channel, or never closed: context.Background() *)
| AlreadyDone     (* closed before the select is reached *)
| DoneLater.      (* closed while the select is blocked *)

(** [make(chan struct{}, n)] panics ([None]) on a negative size. *)
Definition NewSemaphore (n : Z) : option semaphore :=
  if n <? 0 then None
  else Some {| sem_len := 0; sem_cap := n; closed := false |}.

(** [Obtain]: the answer, or [None] when the call blocks for ever.
    When the send and the [Done] case are both ready the runtime picks
    one of them; [pick_send] is its choice. *)
Definition Obtain (s : semaphore) (done : done_channel) (pick_send : bool)
  : option bool * semaphore :=
  if closed s then (Some false, s)
  else
    let queued := {| sem_len := sem_len s + 1; sem_cap := sem_cap s;
                     closed := closed s |} in
    if sem_len s <? sem_cap s then
      match done with
      | AlreadyDone =>
          if pick_send then (Some true, queued) else (Some false, s)
      | _ => (Some true, queued)
      end
    else
      match done with
      | NeverDone => (None, s)
      | _ => (Some false, s)
      end.

Definition Release (s : semaphore) : bool * semaphore :=
  if 0 <? sem_len s then
    (true, {| sem_len := sem_len s - 1; sem_cap := sem_cap s;
              closed := closed s |})
  else (false, s).

Definition Capacity (s : semaphore) : Z := sem_cap s.

Definition Count (s : semaphore) : Z := sem_len s.

Definition Close (s : semaphore) : semaphore :=
  {| sem_len := sem_len s; sem_cap := sem_cap s; closed := true |}.

Definition Closed (s : semaphore) : bool := closed s.

(** A method call, and a sequence of calls made one after the other.
    [play] gives the answers of the [Obtain]s and [Release]s in order
    and the final semaphore; it stops at a call that blocks for ever. *)
Inductive call : Type :=
| CallObtain (done : done_channel) (pick_send : bool)
| CallRelease
| CallClose.

Inductive answer : Type :=
| Obtained (ok : bool)
| Released (ok : bool)
| Stuck.

Fixpoint play (calls : list call) (s : semaphore) : list answer * semaphore :=
  match calls with
  | [] => ([], s)
  | CallObtain done pick :: rest =>
      match Obtain s done pick with
      | (Some ok, s') =>
          let '(answers, s'') := play rest s' in (Obtained ok :: answers, s'')
      | (None, s') => ([Stuck], s')
      end
  | CallRelease :: rest =>
      let '(ok, s') := Release s in
      let '(answers, s'') := play rest s' in (Released ok :: answers, s'')
  | CallClose :: rest => play rest (Close s)
  end.

(** The number of resources granted and given back in a list of answers. *)
Definition granted (answers : list answer) : Z :=
  Z.of_nat (List.length
    (filter (fun a => match a with Obtained true => true | _ => false end)
            answers)).

Definition given_back (answers : list answer) : Z :=
  Z.of_nat (List.length
    (filter (fun a => match a with Released true => true | _ => false end)
            answers)).

End Semaphore.



(** ** [GetLocalIP] (server.go)

    The addresses of the interfaces are taken as [net.InterfaceAddrs]
    returns them; [IP] stands for [net.IP], with its methods
    [IsLoopback], [To4] (nil is [None]) and [String]. *)

Section LocalIP.

Variable IP : Type.
Variable IsLoopback : IP -> bool.
Variable To4 : IP -> option IP.
Variable IP_String : IP -> string.

(** A [net.Addr]: a [*net.IPNet] with its [IP] field, or a value of
    another type. *)
Inductive Addr : Type :=
| IPNetAddr (ip : IP)
| OtherAddr.

(** The [for ... range addrs] loop, with its [return] from inside. *)
Fixpoint scan_addrs (addrs : list Addr) : string :=
  match addrs with
  | [] => EmptyString
  | address :: rest =>
      match address with
      | IPNetAddr ip =>
          if negb (IsLoopback ip) then
            match To4 ip with
            | Some _ => IP_String ip
            | None => scan_addrs rest
            end
          else scan_addrs rest
      | OtherAddr => scan_addrs rest
      end
  end.

Definition GetLocalIP (interface_addrs : list Addr + error) : string :=
  match interface_addrs with
  | inr _ => EmptyString
  | inl addrs => scan_addrs addrs
  end.

(** The addresses the loop stops at. *)
Definition reportable (address : Addr) : bool :=
  match address with
  | IPNetAddr ip =>
      negb (IsLoopback ip) && match To4 ip with Some _ => true | None => false end
  | OtherAddr => false
  end.

End LocalIP.

Arguments IPNetAddr {IP} ip.
Arguments OtherAddr {IP}.

(** * Properties *)

(** ** Arithmetic on [int] *)

Lemma two_63 : 2 ^ 63 = 9223372036854775808.
Proof. reflexivity. Qed.

Lemma two_64 : 2 ^ 64 = 18446744073709551616.
Proof. reflexivity. Qed.

(** Unfold the operations of [int] down to linear arithmetic with
    literal moduli. *)
Ltac int_unfold :=
  unfold GoInt.add, GoInt.sub, GoInt.mul, GoInt.in_int, GoInt.wrap,
    GoInt.min_int, GoInt.max_int in *;
  rewrite ?two_63, ?two_64 in *.

Ltac int_arith := int_unfold; Z.div_mod_to_equations; lia.

Lemma wrap_in_int (z : Z) : GoInt.in_int (GoInt.wrap z).
Proof. int_arith. Qed.

Lemma wrap_id (z : Z) : GoInt.in_int z -> GoInt.wrap z = z.
Proof. intro H. int_arith. Qed.

Lemma wrap_wrap_sub (x y : Z) :
  GoInt.wrap (GoInt.wrap x - y) = GoInt.wrap (x - y).
Proof.
  unfold GoInt.wrap.
  replace ((x + 2 ^ 63) mod 2 ^ 64 - 2 ^ 63 - y + 2 ^ 63)
    with ((x + 2 ^ 63) mod 2 ^ 64 + - y) by ring.
  rewrite Zplus_mod_idemp_l. do 2 f_equal. ring.
Qed.

Lemma sub_mul_exact (p k y : Z) :
  GoInt.in_int (p * k - y) -> GoInt.sub (GoInt.mul p k) y = p * k - y.
Proof.
  intro H. unfold GoInt.sub, GoInt.mul.
  rewrite wrap_wrap_sub. now apply wrap_id.
Qed.

(** ** [rand.Intn] and [Next] never panic *)

Lemma Intn_range (raw n r : Z) : Intn raw n = Some r -> 0 <= r < n.
Proof.
  unfold Intn. destruct (Z.leb_spec n 0) as [Hn | Hn]; [discriminate |].
  intros [= <-]. apply Z.mod_pos_bound. exact Hn.
Qed.

Lemma Intn_onto (n r : Z) : 0 <= r < n -> Intn r n = Some r.
Proof.
  intro H. unfold Intn. destruct (Z.leb_spec n 0); [lia |].
  now rewrite Z.mod_small.
Qed.

(** The shape of every call of [Next]: a positive spread, a draw below
    it, and the clamp. *)
Lemma Next_shape (b : Backoff) (raw previous : Z) :
  let d := GoInt.sub (GoInt.mul previous 3) (BaseSleep b) in
  let diff := if d <=? 0 then 1 else d in
  let sleep := GoInt.add (raw mod diff) (BaseSleep b) in
  0 < diff /\
  Next b raw previous =
    Some (if sleep >? MaxSleep b then MaxSleep b else sleep).
Proof.
  intros d diff sleep.
  assert (Hdiff : 0 < diff).
  { unfold diff. destruct (d <=? 0) eqn:E; [lia |].
    apply Z.leb_gt in E. exact E. }
  split; [exact Hdiff |].
  unfold Next. fold d. fold diff. unfold Intn.
  destruct (Z.leb_spec diff 0); [lia |].
  fold sleep. now destruct (sleep >? MaxSleep b).
Qed.

Lemma Next_never_panics (b : Backoff) (raw previous : Z) :
  exists d, Next b raw previous = Some d.
Proof.
  destruct (Next_shape b raw previous) as [_ H]. rewrite H. eauto.
Qed.

(** ** The classifiers *)

(** C7. [ShouldRetry] answers true exactly on 408 and on the codes from
    500 to 599; so it rejects 200, 400 and 600 and accepts 408, 500, 501
    and 599. *)
Theorem ShouldRetry_iff :
  (forall statusCode : Z,
     ShouldRetry statusCode = true <->
     statusCode = 408 \/ 500 <= statusCode <= 599) /\
  ShouldRetry 200 = false /\ ShouldRetry 400 = false /\
  ShouldRetry 408 = true /\ ShouldRetry 500 = true /\
  ShouldRetry 501 = true /\ ShouldRetry 599 = true /\
  ShouldRetry 600 = false.
Proof.
  split; [| repeat split; reflexivity].
  intro statusCode. unfold ShouldRetry, StatusRequestTimeout.
  rewrite orb_true_iff, andb_true_iff, Z.eqb_eq, Z.geb_le, Z.leb_le.
  lia.
Qed.

(** C8. [IsTimeoutErr] answers true exactly on the errors that implement
    [net.Error] and whose [Timeout] method reports true; a nil error, a
    plain error and a network error without the timeout flag all give
    false. *)
Theorem IsTimeoutErr_iff :
  (forall e : option error,
     IsTimeoutErr e = true <->
     exists msg temporary, e = Some (NetError msg true temporary)) /\
  IsTimeoutErr None = false /\
  (forall msg, IsTimeoutErr (Some (PlainError msg)) = false) /\
  (forall msg temporary,
     IsTimeoutErr (Some (NetError msg false temporary)) = false).
Proof.
  split; [| repeat split].
  intro e. split.
  - destruct e as [[msg | msg timeout temporary] |]; cbn; try discriminate.
    intros ->. now exists msg, temporary.
  - intros (msg & temporary & ->). reflexivity.
Qed.

(** ** [Backoff.Next] *)

(** When [previous*3] itself fits in an [int], the subtraction of a
    positive [BaseSleep] cannot wrap around. *)
Remark mul_sub_no_wrap (base previous : Z) :
  0 < base -> GoInt.in_int base ->
  0 <= previous -> previous * 3 <= GoInt.max_int ->
  GoInt.min_int <= GoInt.mul previous 3 - base.
Proof.
  intros Hb Hin Hp Hmul. unfold GoInt.mul.
  rewrite wrap_id by (int_unfold; lia). int_unfold. lia.
Qed.

(** C5, as the code has it.  With [0 < BaseSleep <= MaxSleep] and
    [previous >= 0], every random draw gives a delay within
    [[BaseSleep, MaxSleep]] provided the [int] subtraction
    [previous*3 - BaseSleep] does not wrap around below the smallest
    [int]. *)
Theorem Next_within_bounds (b : Backoff) (raw previous : Z) :
  0 < BaseSleep b ->
  BaseSleep b <= MaxSleep b ->
  GoInt.in_int (MaxSleep b) ->
  0 <= previous ->
  GoInt.min_int <= GoInt.mul previous 3 - BaseSleep b ->
  exists delay,
    Next b raw previous = Some delay /\
    BaseSleep b <= delay <= MaxSleep b.
Proof.
  intros Hbase Hmax Hint Hprev Hsub.
  destruct (Next_shape b raw previous) as [Hdiff ->].
  set (t := GoInt.mul previous 3) in *.
  assert (Ht : GoInt.in_int t) by apply wrap_in_int.
  assert (Hd : GoInt.sub t (BaseSleep b) = t - BaseSleep b).
  { unfold GoInt.sub. apply wrap_id. clearbody t. int_unfold. lia. }
  rewrite Hd in *.
  set (diff := if t - BaseSleep b <=? 0 then 1 else t - BaseSleep b) in *.
  pose proof (Z.mod_pos_bound raw diff Hdiff) as Hr.
  assert (Hdiff' : diff = 1 \/ diff = t - BaseSleep b).
  { unfold diff. destruct (t - BaseSleep b <=? 0); auto. }
  assert (Hs : GoInt.add (raw mod diff) (BaseSleep b)
               = raw mod diff + BaseSleep b).
  { unfold GoInt.add. apply wrap_id. clearbody t diff.
    generalize dependent (raw mod diff). intros r Hr.
    int_unfold. lia. }
  rewrite Hs. eexists. split; [reflexivity |].
  destruct (Z.gtb_spec (raw mod diff + BaseSleep b) (MaxSleep b)); lia.
Qed.

(** The first delay of the default client lies within its bounds. *)
Lemma Next_within_bounds_witness :
  exists delay,
    Next Fixtures.default_backoff 12345 0 = Some delay /\ 100 <= delay <= 5000.
Proof.
  apply (Next_within_bounds Fixtures.default_backoff 12345 0);
    cbn; unfold GoInt.in_int, GoInt.min_int, GoInt.max_int; cbn; lia.
Defined.

(** C5 as stated fails: a non-negative [previous] whose triple wraps
    around gives a huge spread, and the sum of the draw and [BaseSleep]
    wraps to the smallest [int]. *)
Lemma Next_out_of_bounds :
  let b := {| BaseSleep := 10; MaxSleep := 50 |} in
  let previous := 3074457345618258603 in
  let raw := 9223372036854775798 in
  0 < BaseSleep b /\ BaseSleep b <= MaxSleep b /\ 0 <= previous /\
  GoInt.in_int previous /\
  Next b raw previous = Some (-9223372036854775808) /\
  ~ (BaseSleep b <= -9223372036854775808 <= MaxSleep b).
Proof.
  cbv zeta. repeat split; try (vm_compute; congruence).
  cbn. lia.
Qed.

Lemma spread_spec_pos (b : Backoff) (previous : Z) :
  0 < spread_spec b previous.
Proof.
  unfold spread_spec.
  destruct (Z.leb_spec (previous * 3 - BaseSleep b) 0); lia.
Qed.

(** C6, as the code has it.  When neither [previous*3] nor
    [previous*3 - BaseSleep] leaves the range of [int], [Next] is the
    algorithm of the specification: the spread is
    [previous*3 - BaseSleep] clamped to 1 from below, the draw is what
    [rand.Intn] returns for that spread, an integer of [[0, spread)],
    and the result is the draw plus [BaseSleep], clamped to [MaxSleep]
    from above.  The draw is uniform: every integer of [[0, spread)] can
    be drawn, and in every run of [spread] consecutive raw outputs of
    the random source each of them is drawn by exactly one, so that
    equally likely raw outputs give equally likely draws. *)
Theorem Next_refines_spec (b : Backoff) (raw previous : Z) :
  GoInt.in_int (BaseSleep b) ->
  GoInt.in_int (previous * 3) ->
  GoInt.in_int (previous * 3 - BaseSleep b) ->
  (exists r, Intn raw (spread_spec b previous) = Some r /\
             0 <= r < spread_spec b previous /\
             Next b raw previous = Some (Next_spec b r)) /\
  (forall r, 0 <= r < spread_spec b previous ->
             Next b r previous = Some (Next_spec b r)) /\
  (forall q r,
     0 <= r < spread_spec b previous ->
     exists raw',
       (q * spread_spec b previous <= raw' < (q + 1) * spread_spec b previous /\
        Intn raw' (spread_spec b previous) = Some r /\
        Next b raw' previous = Some (Next_spec b r)) /\
       forall raw'',
         q * spread_spec b previous <= raw''
           < (q + 1) * spread_spec b previous ->
         Intn raw'' (spread_spec b previous) = Some r ->
         raw'' = raw').
Proof.
  intros Hbase Hmul Hsub.
  pose proof (spread_spec_pos b previous) as Hpos.
  assert (Hdraw : forall raw',
            Intn raw' (spread_spec b previous)
            = Some (raw' mod spread_spec b previous)).
  { intro raw'. unfold Intn.
    destruct (Z.leb_spec (spread_spec b previous) 0); [lia | reflexivity]. }
  assert (Hshape : forall raw', exists r,
            0 <= r < spread_spec b previous /\
            r = raw' mod spread_spec b previous /\
            Next b raw' previous = Some (Next_spec b r)).
  { intro raw'. destruct (Next_shape b raw' previous) as [Hdiff ->].
    rewrite (sub_mul_exact previous 3 (BaseSleep b) Hsub) in *.
    fold (spread_spec b previous) in *.
    pose proof (Z.mod_pos_bound raw' _ Hdiff) as Hr.
    exists (raw' mod spread_spec b previous).
    split; [exact Hr | split; [reflexivity |]].
    assert (Hspread : spread_spec b previous = 1 \/
                      spread_spec b previous = previous * 3 - BaseSleep b).
    { unfold spread_spec. destruct (previous * 3 - BaseSleep b <=? 0); auto. }
    unfold Next_spec, GoInt.add. rewrite wrap_id; [reflexivity |].
    clear Hdraw Hpos.
    generalize dependent (raw' mod spread_spec b previous). intros r Hr.
    generalize dependent (spread_spec b previous). intros spread _ Hr Hspread.
    int_unfold. lia. }
  split; [| split].
  - destruct (Hshape raw) as (r & Hr & -> & HN).
    eexists. split; [apply Hdraw | split; [exact Hr | exact HN]].
  - intros r Hr. destruct (Hshape r) as (r' & _ & -> & HN).
    rewrite Z.mod_small in HN by exact Hr. exact HN.
  - intros q r Hr.
    set (spread := spread_spec b previous) in *.
    assert (Hmod : (q * spread + r) mod spread = r).
    { rewrite Z.add_comm, Z_mod_plus_full. now apply Z.mod_small. }
    exists (q * spread + r). split; [split; [| split] |].
    + lia.
    + rewrite Hdraw. now rewrite Hmod.
    + destruct (Hshape (q * spread + r)) as (r' & _ & -> & HN).
      rewrite Hmod in HN. exact HN.
    + intros raw'' Hwin Hr''. rewrite Hdraw in Hr''. injection Hr'' as Hr''.
      pose proof (Z.div_mod raw'' spread ltac:(lia)) as Hdm.
      rewrite Hr'' in Hdm.
      assert (raw'' / spread = q) by nia.
      subst q. lia.
Qed.

Lemma Next_refines_spec_witness :
  (exists r, Intn 12345 800 = Some r /\
             0 <= r < 800 /\
             Next Fixtures.default_backoff 12345 300 =
               Some (Next_spec Fixtures.default_backoff r)) /\
  (forall r, 0 <= r < 800 ->
             Next Fixtures.default_backoff r 300 =
               Some (Next_spec Fixtures.default_backoff r)) /\
  (forall q r,
     0 <= r < 800 ->
     exists raw',
       (q * 800 <= raw' < (q + 1) * 800 /\
        Intn raw' 800 = Some r /\
        Next Fixtures.default_backoff raw' 300 =
          Some (Next_spec Fixtures.default_backoff r)) /\
       forall raw'',
         q * 800 <= raw'' < (q + 1) * 800 ->
         Intn raw'' 800 = Some r ->
         raw'' = raw').
Proof.
  apply (Next_refines_spec Fixtures.default_backoff 12345 300);
    cbn; unfold GoInt.in_int, GoInt.min_int, GoInt.max_int; cbn; lia.
Defined.

(** C6 as stated fails where the arithmetic of [int] wraps around: at
    the first [previous] below the result is a value that no draw of the
    specified algorithm yields; at the second the code draws from
    [[0, 1)] although the specified spread is far larger, so only one of
    the specified results is ever produced. *)
Lemma Next_departs_from_spec :
  let b := Fixtures.default_backoff in
  (Next b 9223372036854775708 3074457345618258603
     = Some (-9223372036854775808) /\
   forall r, 0 <= r < spread_spec b 3074457345618258603 ->
             Next_spec b r <> -9223372036854775808) /\
  (0 <= 200 < spread_spec b 4611686018427387904 /\
   Next_spec b 200 = 300 /\
   forall raw, Next b raw 4611686018427387904 = Some 100).
Proof.
  cbv zeta. split; [split | split; [| split]].
  - vm_compute. reflexivity.
  - intros r [Hr _]. unfold Next_spec.
    cbn [BaseSleep MaxSleep Fixtures.default_backoff].
    destruct (r + 100 >? 5000); lia.
  - vm_compute. split; congruence.
  - reflexivity.
  - intro raw.
    destruct (Next_shape Fixtures.default_backoff raw 4611686018427387904)
      as [_ ->].
    change (GoInt.sub (GoInt.mul 4611686018427387904 3)
              (BaseSleep Fixtures.default_backoff))
      with (-4611686018427388004).
    cbn [Z.leb Z.compare]. rewrite Z.mod_1_r. reflexivity.
Qed.

(** C10, as the code has it.  With [BaseSleep >= 1], whenever
    [previous*3 <= BaseSleep] and the subtraction
    [previous*3 - BaseSleep] stays within [int], the result of [Next]
    does not depend on the random source and is the smaller of
    [BaseSleep] and [MaxSleep]; [previous = 0] is such a case. *)
Theorem Next_first_delay_fixed (b : Backoff) (raw previous : Z) :
  1 <= BaseSleep b ->
  GoInt.in_int (BaseSleep b) ->
  previous * 3 <= BaseSleep b ->
  GoInt.min_int <= previous * 3 - BaseSleep b ->
  Next b raw previous = Some (Z.min (BaseSleep b) (MaxSleep b)) /\
  Next b raw 0 = Some (Z.min (BaseSleep b) (MaxSleep b)).
Proof.
  intros Hbase Hint Hle Hsub.
  assert (Hfix : forall p, p * 3 <= BaseSleep b ->
                   GoInt.min_int <= p * 3 - BaseSleep b ->
                   Next b raw p = Some (Z.min (BaseSleep b) (MaxSleep b))).
  { intros p Hp Hp'. destruct (Next_shape b raw p) as [_ ->].
    rewrite (sub_mul_exact p 3 (BaseSleep b)) by (int_unfold; lia).
    destruct (Z.leb_spec (p * 3 - BaseSleep b) 0); [| lia].
    rewrite Z.mod_1_r. unfold GoInt.add. rewrite wrap_id by (int_unfold; lia).
    cbn [Z.add].
    destruct (Z.gtb_spec (BaseSleep b) (MaxSleep b)); f_equal; lia. }
  split; [now apply Hfix |].
  apply Hfix; [lia | int_unfold; lia].
Qed.

Lemma Next_first_delay_fixed_witness :
  Next Fixtures.default_backoff 987654321 33 = Some 100 /\
  Next Fixtures.default_backoff 987654321 0 = Some 100.
Proof.
  apply (Next_first_delay_fixed Fixtures.default_backoff 987654321 33);
    cbn; unfold GoInt.in_int, GoInt.min_int, GoInt.max_int; cbn; lia.
Defined.

(** C10 as stated fails for a very negative [previous]: its triple wraps
    around to a large positive [int], the spread is no longer clamped
    and the result follows the random source. *)
Lemma Next_small_previous_randomised :
  let b := Fixtures.default_backoff in
  let previous := -4611686018427387904 in
  1 <= BaseSleep b /\ previous * 3 <= BaseSleep b /\
  Z.min (BaseSleep b) (MaxSleep b) = 100 /\
  Next b 0 previous = Some 100 /\
  Next b 1 previous = Some 101.
Proof.
  cbv zeta. repeat split; vm_compute; congruence.
Qed.

(** ** The retry loop *)

Section Loop.

Context {W B R : Type}.
Variable c : client W B R.
Variable maxTries : Z.

(** An attempt never panics: it issues exactly one request, records it
    at the head of the trace and keeps the counter. *)
Lemma attempt_inv (s : loop_state W B) :
  exists s' w1,
    attempt c s = Some s' /\
    tries s' = tries s /\
    reset_body (tries s) (req s) (world (env s)) = (req s', w1) /\
    RequestWithClose (cl c) (req s') w1 = (res s', world (env s')) /\
    sent (env s') = (req s', res s') :: sent (env s).
Proof.
  unfold attempt.
  destruct (Next_never_panics (bk c) (rand (env s) 0%nat) (wait s)) as [d ->].
  destruct (reset_body (tries s) (req s) (world (env s))) as [rq w1] eqn:Hreset.
  destruct (RequestWithClose (cl c) rq w1) as [r w2] eqn:Hsend.
  eexists. exists w1. split; [reflexivity |]. cbn. auto.
Qed.

Lemma attempt_total (s : loop_state W B) : exists s', attempt c s = Some s'.
Proof. destruct (attempt_inv s) as (s' & _ & H & _). eauto. Qed.

Lemma attempt_tries (s s' : loop_state W B) :
  attempt c s = Some s' -> tries s' = tries s.
Proof.
  intro H. destruct (attempt_inv s) as (s1 & _ & H1 & Ht & _).
  congruence.
Qed.

Lemma attempt_sent (s s' : loop_state W B) :
  attempt c s = Some s' ->
  sent (env s') = (req s', res s') :: sent (env s).
Proof.
  intro H. destruct (attempt_inv s) as (s1 & _ & H1 & _ & _ & _ & Hs).
  congruence.
Qed.

(** The three ways through one turn of the loop. *)
Lemma iteration_exit (s : loop_state W B) :
  maxTries < tries s ->
  iteration c maxTries s = Returned (returning (GoInt.sub (tries s) 1) s).
Proof.
  intro H. unfold iteration.
  destruct (Z.leb_spec (tries s) maxTries); [lia | reflexivity].
Qed.

Lemma iteration_retry (s s' : loop_state W B) :
  tries s <= maxTries ->
  attempt c s = Some s' ->
  retry_verdict c (res s') = true ->
  iteration c maxTries s = Running (next_try s').
Proof.
  intros Hle Ha Hv. unfold iteration.
  destruct (Z.leb_spec (tries s) maxTries); [| lia].
  now rewrite Ha, Hv.
Qed.

Lemma iteration_stop (s s' : loop_state W B) :
  tries s <= maxTries ->
  attempt c s = Some s' ->
  retry_verdict c (res s') = false ->
  iteration c maxTries s = Returned (returning (tries s) s').
Proof.
  intros Hle Ha Hv. unfold iteration.
  destruct (Z.leb_spec (tries s) maxTries); [| lia].
  rewrite Ha, Hv. now rewrite (attempt_tries _ _ Ha).
Qed.

Lemma iteration_running_inv (s s2 : loop_state W B) :
  iteration c maxTries s = Running s2 ->
  tries s <= maxTries /\
  exists s', attempt c s = Some s' /\
             retry_verdict c (res s') = true /\ s2 = next_try s'.
Proof.
  unfold iteration.
  destruct (Z.leb_spec (tries s) maxTries); [| discriminate].
  destruct (attempt c s) as [s' |]; [| discriminate].
  destruct (retry_verdict c (res s')) eqn:Hv; [| discriminate].
  intros [= <-]. eauto.
Qed.

(** Turns of the loop compose. *)
Lemma run_app (n m : nat) (s : loop_state W B) :
  run (n + m) c maxTries s =
  match run n c maxTries s with
  | Running s' => run m c maxTries s'
  | r => r
  end.
Proof.
  revert s. induction n as [| n IH]; intro s; cbn [run Nat.add].
  - reflexivity.
  - destruct (iteration c maxTries s); auto.
Qed.

Lemma run_last (n : nat) (s : loop_state W B) :
  run (S n) c maxTries s =
  match run n c maxTries s with
  | Running s' => iteration c maxTries s'
  | r => r
  end.
Proof.
  replace (S n) with (n + 1)%nat by lia. rewrite run_app.
  destruct (run n c maxTries s); try reflexivity.
  cbn [run]. now destruct (iteration c maxTries s0).
Qed.

(** Once returned, more fuel changes nothing. *)
Lemma run_more_fuel (n m : nat) (s : loop_state W B) (o : outcome W B) :
  run n c maxTries s = Returned o ->
  (n <= m)%nat ->
  run m c maxTries s = Returned o.
Proof.
  intros H Hle. replace m with (n + (m - n))%nat by lia.
  rewrite run_app, H. reflexivity.
Qed.

Lemma run_running_prefix (n m : nat) (s s2 : loop_state W B) :
  run m c maxTries s = Running s2 ->
  (n <= m)%nat ->
  exists s1, run n c maxTries s = Running s1.
Proof.
  intros H Hle. replace m with (n + (m - n))%nat in H by lia.
  rewrite run_app in H.
  destruct (run n c maxTries s); try discriminate. eauto.
Qed.

(** During the first pass of the counter over the positive [int]s, the
    counter is one more than the number of turns made, which is the
    number of requests issued. *)
Lemma run_first_pass (rq : Request W B) (w : W) (rnd : nat -> Z)
  (n : nat) (s : loop_state W B) :
  run n c maxTries (entry rq w rnd) = Running s ->
  Z.of_nat n < GoInt.max_int ->
  tries s = Z.of_nat n + 1 /\
  List.length (sent (env s)) = n /\
  (n <> 0%nat -> Z.of_nat n <= maxTries).
Proof.
  revert s. induction n as [| n IH]; intros s Hrun Hn.
  - cbn in Hrun. injection Hrun as <-. cbn. repeat split; congruence.
  - rewrite run_last in Hrun.
    destruct (run n c maxTries (entry rq w rnd)) as [s0 | |] eqn:Hrun0;
      try discriminate.
    destruct (IH s0 eq_refl ltac:(lia)) as (Ht & Hlen & _).
    apply iteration_running_inv in Hrun as (Hle & s' & Ha & _ & ->).
    cbn [next_try tries env].
    rewrite (attempt_tries _ _ Ha), (attempt_sent _ _ Ha), Ht.
    cbn [List.length]. repeat split; try lia.
    unfold GoInt.add. rewrite wrap_id; [lia | int_unfold; lia].
Qed.

(** Where the loop goes from attempt [i] once its request has been
    answered: out of [Do] when the verdict is to stop ... *)
Lemma Do_stops_at (rq : Request W B) (w : W) (rnd : nat -> Z)
  (i : Z) (s s' : loop_state W B) :
  1 <= i <= maxTries ->
  maxTries <= GoInt.max_int ->
  run (Z.to_nat (i - 1)) c maxTries (entry rq w rnd) = Running s ->
  attempt c s = Some s' ->
  retry_verdict c (res s') = false ->
  forall fuel, (Z.to_nat (i - 1) < fuel)%nat ->
    Do fuel c rq maxTries w rnd = Returned (returning i s') /\
    sends (returning i s') = i.
Proof.
  intros Hi Hmax Hrun Ha Hv fuel Hfuel.
  destruct (run_first_pass rq w rnd _ s Hrun ltac:(lia)) as (Ht & Hlen & _).
  rewrite Z2Nat.id in Ht by lia.
  split.
  - apply (run_more_fuel (S (Z.to_nat (i - 1)))); [| lia].
    rewrite run_last, Hrun.
    rewrite (iteration_stop s s') by (auto; lia).
    do 2 f_equal. lia.
  - unfold sends. cbn [returning o_env].
    rewrite (attempt_sent _ _ Ha). cbn [List.length]. lia.
Qed.

(** ... and on to attempt [i + 1] when the verdict is to retry and
    [i < maxTries]. *)
Lemma Do_continues_at (rq : Request W B) (w : W) (rnd : nat -> Z)
  (i : Z) (s s' : loop_state W B) :
  1 <= i < maxTries ->
  maxTries <= GoInt.max_int ->
  run (Z.to_nat (i - 1)) c maxTries (entry rq w rnd) = Running s ->
  attempt c s = Some s' ->
  retry_verdict c (res s') = true ->
  Do (Z.to_nat i) c rq maxTries w rnd = Running (next_try s') /\
  tries (next_try s') = i + 1 /\
  exists s2, attempt c (next_try s') = Some s2 /\
             Z.of_nat (List.length (sent (env s2))) = i + 1.
Proof.
  intros Hi Hmax Hrun Ha Hv.
  destruct (run_first_pass rq w rnd _ s Hrun ltac:(lia)) as (Ht & Hlen & _).
  rewrite Z2Nat.id in Ht by lia.
  assert (Hnext : Do (Z.to_nat i) c rq maxTries w rnd = Running (next_try s')).
  { unfold Do. replace (Z.to_nat i) with (S (Z.to_nat (i - 1))) by lia.
    rewrite run_last, Hrun. apply iteration_retry; auto; lia. }
  split; [exact Hnext |].
  split.
  - cbn [next_try tries]. rewrite (attempt_tries _ _ Ha), Ht.
    unfold GoInt.add. rewrite wrap_id; [lia | int_unfold; lia].
  - destruct (attempt_total (next_try s')) as [s2 Hs2]. exists s2.
    split; [exact Hs2 |].
    rewrite (attempt_sent _ _ Hs2). cbn [next_try env List.length].
    rewrite (attempt_sent _ _ Ha). cbn [List.length]. lia.
Qed.

(** With [maxTries] below the largest [int], the loop comes to an end
    within [maxTries + 1] turns, and the counter it returns is the
    number of requests issued. *)
Lemma run_returns (k : nat) (s : loop_state W B) :
  1 <= maxTries < GoInt.max_int ->
  tries s = Z.of_nat (List.length (sent (env s))) + 1 ->
  tries s + Z.of_nat k = maxTries + 1 ->
  exists o,
    run (S k) c maxTries s = Returned o /\
    o_tries o = sends o /\ 1 <= o_tries o <= maxTries.
Proof.
  intro Hmax. revert s. induction k as [| k IH]; intros s Hinv Hk.
  - cbn [run]. rewrite iteration_exit by lia. eexists. split; [reflexivity |].
    unfold sends. cbn [returning o_tries o_env].
    unfold GoInt.sub. rewrite wrap_id by (int_unfold; lia). lia.
  - destruct (attempt_total s) as [s' Ha].
    destruct (retry_verdict c (res s')) eqn:Hv.
    + cbn [run]. rewrite (iteration_retry s s') by (auto; lia).
      apply IH.
      * cbn [next_try tries env]. rewrite (attempt_tries _ _ Ha).
        rewrite (attempt_sent _ _ Ha). cbn [List.length].
        unfold GoInt.add. rewrite wrap_id by (int_unfold; lia). lia.
      * cbn [next_try tries]. rewrite (attempt_tries _ _ Ha).
        unfold GoInt.add. rewrite wrap_id by (int_unfold; lia). lia.
    + cbn [run]. rewrite (iteration_stop s s') by (auto; lia).
      eexists. split; [reflexivity |].
      unfold sends. cbn [returning o_tries o_env].
      rewrite (attempt_sent _ _ Ha). cbn [List.length]. lia.
Qed.

End Loop.

(** ** [client.Do] *)

Section Do_properties.

Context {W B R : Type}.
Variable c : client W B R.
Variable maxTries : Z.
Variable rq : Request W B.
Variable w : W.
Variable rnd : nat -> Z.

(** C1. Under [timeoutOnly], when attempt [i] is reached and its request
    fails with error [e]: if [e] is not a timeout, [Do] returns at once
    with that attempt's result, [tries = i] and [i] requests issued in
    all; if [e] is a timeout and [i < maxTries], the loop goes on and a
    request number [i + 1] is issued. *)
Theorem Do_timeoutOnly_error (i : Z) (s s' : loop_state W B) (e : error) :
  timeoutOnly c = true ->
  1 <= i <= maxTries ->
  maxTries <= GoInt.max_int ->
  run (Z.to_nat (i - 1)) c maxTries (entry rq w rnd) = Running s ->
  attempt c s = Some s' ->
  err (res s') = Some e ->
  (IsTimeoutErr (Some e) = false ->
   forall fuel, (Z.to_nat (i - 1) < fuel)%nat ->
   exists o,
     Do fuel c rq maxTries w rnd = Returned o /\
     o_tries o = i /\ o_res o = res s' /\ o_env o = env s' /\
     sends o = i) /\
  (IsTimeoutErr (Some e) = true ->
   i < maxTries ->
   exists s2 s2',
     Do (Z.to_nat i) c rq maxTries w rnd = Running s2 /\
     tries s2 = i + 1 /\
     attempt c s2 = Some s2' /\
     Z.of_nat (List.length (sent (env s2'))) = i + 1).
Proof.
  intros Hmode Hi Hmax Hrun Ha He.
  assert (Hv : retry_verdict c (res s') = IsTimeoutErr (Some e)).
  { unfold retry_verdict. now rewrite He, Hmode. }
  split.
  - intros Hfatal fuel Hfuel. rewrite Hfatal in Hv.
    destruct (Do_stops_at c maxTries rq w rnd i s s'
                Hi Hmax Hrun Ha Hv fuel Hfuel) as [HDo Hsends].
    exists (returning i s'). repeat split; assumption.
  - intros Htimeout Hlt. rewrite Htimeout in Hv.
    destruct (Do_continues_at c maxTries rq w rnd i s s'
                ltac:(lia) Hmax Hrun Ha Hv) as (HDo & Ht & s2' & Ha2 & Hlen).
    exists (next_try s'), s2'. auto.
Qed.

(** C3. When attempt [i] is reached and its request comes back without
    error and with a status that [ShouldRetry] rejects, [Do] returns at
    that attempt: the result is that status and body with a nil error,
    [tries = i], and [i] requests have been issued in all. *)
Theorem Do_settled_status (i : Z) (s s' : loop_state W B) :
  1 <= i <= maxTries ->
  maxTries <= GoInt.max_int ->
  run (Z.to_nat (i - 1)) c maxTries (entry rq w rnd) = Running s ->
  attempt c s = Some s' ->
  err (res s') = None ->
  ShouldRetry (status (res s')) = false ->
  forall fuel, (Z.to_nat (i - 1) < fuel)%nat ->
  exists o,
    Do fuel c rq maxTries w rnd = Returned o /\
    o_tries o = i /\
    status (o_res o) = status (res s') /\
    body (o_res o) = body (res s') /\
    err (o_res o) = None /\
    o_env o = env s' /\
    sends o = i.
Proof.
  intros Hi Hmax Hrun Ha He Hstatus fuel Hfuel.
  assert (Hv : retry_verdict c (res s') = false).
  { unfold retry_verdict. now rewrite He. }
  destruct (Do_stops_at c maxTries rq w rnd i s s'
              Hi Hmax Hrun Ha Hv fuel Hfuel) as [HDo Hsends].
  exists (returning i s'). repeat split; assumption.
Qed.

(** C4, as the code has it.  For [1 <= maxTries] below the largest
    [int], whatever the transport does, [Do] returns, the [tries] it
    returns is the number of requests issued, and it lies between 1 and
    [maxTries]. *)
Theorem Do_tries_counts_sends (fuel : nat) :
  1 <= maxTries < GoInt.max_int ->
  (Z.to_nat maxTries < fuel)%nat ->
  exists o,
    Do fuel c rq maxTries w rnd = Returned o /\
    o_tries o = sends o /\
    1 <= o_tries o <= maxTries.
Proof.
  intros Hmax Hfuel.
  destruct (run_returns c maxTries (Z.to_nat maxTries) (entry rq w rnd) Hmax)
    as (o & Hrun & Hcount & Hrange).
  - reflexivity.
  - cbn [entry tries]. lia.
  - exists o. split; [| auto].
    apply (run_more_fuel c maxTries (S (Z.to_nat maxTries)));
      [exact Hrun | lia].
Qed.

(** C2, as the code has it.  For [1 <= maxTries] below the largest
    [int], when each of the [maxTries] attempts ends in a verdict to
    retry, [Do] returns after exactly [maxTries] requests with
    [tries = maxTries], and what it returns is the result of the last
    request, untouched. *)
Theorem Do_exhausts (fuel : nat) :
  1 <= maxTries < GoInt.max_int ->
  (forall (n : nat) (s s' : loop_state W B),
     Z.of_nat n < maxTries ->
     run n c maxTries (entry rq w rnd) = Running s ->
     attempt c s = Some s' ->
     retry_verdict c (res s') = true) ->
  (Z.to_nat maxTries < fuel)%nat ->
  exists (o : outcome W B) (s s' : loop_state W B),
    Do fuel c rq maxTries w rnd = Returned o /\
    o_tries o = maxTries /\
    sends o = maxTries /\
    run (Z.to_nat (maxTries - 1)) c maxTries (entry rq w rnd) = Running s /\
    attempt c s = Some s' /\
    o_res o = res s' /\
    o_env o = env s'.
Proof.
  intros Hmax Hall Hfuel.
  assert (Hreach : forall n : nat, Z.of_nat n <= maxTries ->
            exists s, run n c maxTries (entry rq w rnd) = Running s).
  { induction n as [| n IH]; intro Hn.
    - eexists. reflexivity.
    - destruct IH as [s Hs]; [lia |].
      destruct (run_first_pass c maxTries rq w rnd n s Hs ltac:(lia))
        as (Ht & _ & _).
      destruct (attempt_total c s) as [s' Ha].
      exists (next_try s'). rewrite run_last, Hs.
      apply iteration_retry; [lia | exact Ha |].
      apply (Hall n s s'); [lia | exact Hs | exact Ha]. }
  destruct (Hreach (Z.to_nat (maxTries - 1)) ltac:(lia)) as [s Hs].
  destruct (run_first_pass c maxTries rq w rnd _ s Hs ltac:(lia))
    as (Ht & Hlen & _).
  destruct (attempt_total c s) as [s' Ha].
  assert (Hv : retry_verdict c (res s') = true).
  { apply (Hall (Z.to_nat (maxTries - 1)) s s'); [lia | exact Hs | exact Ha]. }
  exists (returning maxTries s'), s, s'.
  repeat split; try assumption; try reflexivity.
  - apply (run_more_fuel c maxTries (S (S (Z.to_nat (maxTries - 1))))); [| lia].
    rewrite run_last, run_last, Hs.
    rewrite (iteration_retry c maxTries s s') by (auto; lia).
    rewrite iteration_exit.
    + cbn [next_try tries]. rewrite (attempt_tries c _ _ Ha), Ht.
      unfold GoInt.add, GoInt.sub.
      rewrite (wrap_id (Z.of_nat _ + 1 + 1)) by (int_unfold; lia).
      rewrite wrap_id by (int_unfold; lia).
      unfold returning. cbn [next_try res req env]. do 2 f_equal. lia.
    + cbn [next_try tries]. rewrite (attempt_tries c _ _ Ha), Ht.
      unfold GoInt.add. rewrite wrap_id by (int_unfold; lia). lia.
  - unfold sends. cbn [returning o_env].
    rewrite (attempt_sent c _ _ Ha). cbn [List.length]. lia.
Qed.

(** C9. At attempt [i] the request handed to [RequestWithClose] is the
    caller's request after the reset of lines 133-135: for [i > 1], a
    non-nil [Body] and a non-nil [GetBody], its [Body] is what [GetBody]
    has just returned; on the first attempt, or without a [Body], or
    without a [GetBody], the request is left as it was. *)
Theorem Do_resets_body (i : Z) (s s' : loop_state W B) :
  1 <= i <= maxTries ->
  maxTries <= GoInt.max_int ->
  run (Z.to_nat (i - 1)) c maxTries (entry rq w rnd) = Running s ->
  attempt c s = Some s' ->
  exists w1,
    RequestWithClose (cl c) (req s') w1 = (res s', world (env s')) /\
    hd_error (sent (env s')) = Some (req s', res s') /\
    (1 < i ->
     forall b get,
       Body (req s) = Some b ->
       GetBody (req s) = Some get ->
       Body (req s') = fst (fst (get (world (env s)))) /\
       GetBody (req s') = Some get /\
       w1 = snd (get (world (env s)))) /\
    (i = 1 \/ Body (req s) = None \/ GetBody (req s) = None ->
     req s' = req s /\ w1 = world (env s)).
Proof.
  intros Hi Hmax Hrun Ha.
  destruct (run_first_pass c maxTries rq w rnd _ s Hrun ltac:(lia))
    as (Ht & _ & _).
  rewrite Z2Nat.id in Ht by lia.
  destruct (attempt_inv c s) as (s1 & w1 & Ha1 & _ & Hreset & Hsend & Hsent).
  assert (s1 = s') by congruence. subst s1.
  exists w1. split; [exact Hsend |]. split; [now rewrite Hsent |].
  unfold reset_body in Hreset. split.
  - intros Hlt b get Hb Hg. rewrite Hb, Hg in Hreset.
    destruct (Z.gtb_spec (tries s) 1); [| lia].
    destruct (get (world (env s))) as [[b' e'] w'].
    injection Hreset as <- <-. cbn. auto.
  - intros [-> | [Hb | Hg]].
    + destruct (Body (req s)), (GetBody (req s));
        try (injection Hreset as <- <-; now split).
      destruct (Z.gtb_spec (tries s) 1); [lia |].
      injection Hreset as <- <-. now split.
    + rewrite Hb in Hreset. injection Hreset as <- <-. now split.
    + rewrite Hg in Hreset. destruct (Body (req s));
        injection Hreset as <- <-; now split.
Qed.

End Do_properties.

(** ** The end-to-end cases of the test suite, and the largest [int] *)

Ltac int_lit := cbn; int_unfold; lia.

(** A non-timeout error on the first attempt, [timeoutOnly] and
    [maxTries = 5]: one attempt. *)
Lemma Do_timeoutOnly_error_witness :
  exists o,
    Do 5 (NewClient (Fixtures.always_fails (PlainError "connection refused"))
            [TimeoutOnly])
       Fixtures.get_request 5 0 Fixtures.no_jitter = Returned o /\
    o_tries o = 1 /\
    err (o_res o) = Some (PlainError "connection refused") /\
    sends o = 1.
Proof.
  pose proof (Do_timeoutOnly_error
                (NewClient
                   (Fixtures.always_fails (PlainError "connection refused"))
                   [TimeoutOnly])
                5 Fixtures.get_request 0 Fixtures.no_jitter 1
                (entry Fixtures.get_request 0 Fixtures.no_jitter) _
                (PlainError "connection refused")
                eq_refl ltac:(lia) ltac:(int_lit) eq_refl eq_refl eq_refl)
    as [Hstop _].
  destruct (Hstop eq_refl 5%nat ltac:(cbn; lia))
    as (o & HDo & Ht & Hres & _ & Hs).
  exists o. repeat split; try assumption. now rewrite Hres.
Defined.

(** The other branch: a transport that always times out, [timeoutOnly]
    and [maxTries = 3], uses the three attempts. *)
Example Do_timeoutOnly_timeouts :
  exists o,
    Do 4 (NewClient (Fixtures.always_fails (NetError "i/o timeout" true true))
            [TimeoutOnly])
       Fixtures.get_request 3 0 Fixtures.no_jitter = Returned o /\
    o_tries o = 3 /\ IsTimeoutErr (err (o_res o)) = true /\ sends o = 3.
Proof. eexists. split; [reflexivity |]. repeat split. Qed.

(** A server that always answers 200, [maxTries = 3]: one attempt. *)
Lemma Do_settled_status_witness :
  exists o,
    Do 3 (NewClient (Fixtures.always_status 200) [])
       Fixtures.get_request 3 0 Fixtures.no_jitter = Returned o /\
    o_tries o = 1 /\ status (o_res o) = 200 /\ err (o_res o) = None /\
    sends o = 1.
Proof.
  destruct (Do_settled_status
              (NewClient (Fixtures.always_status 200) [])
              3 Fixtures.get_request 0 Fixtures.no_jitter 1
              (entry Fixtures.get_request 0 Fixtures.no_jitter) _
              ltac:(lia) ltac:(int_lit) eq_refl eq_refl eq_refl eq_refl
              3%nat ltac:(cbn; lia))
    as (o & HDo & Ht & Hstatus & _ & Herr & _ & Hs).
  exists o. repeat split; assumption.
Defined.

(** A client error is settled too: 404 is returned from the first
    attempt. *)
Example Do_settled_status_404 :
  exists o,
    Do 3 (NewClient (Fixtures.always_status 404) [])
       Fixtures.get_request 3 0 Fixtures.no_jitter = Returned o /\
    o_tries o = 1 /\ status (o_res o) = 404 /\ err (o_res o) = None.
Proof. eexists. split; [reflexivity |]. repeat split. Qed.

(** A server that recovers at its third request, [maxTries = 5]. *)
Lemma Do_tries_counts_sends_witness :
  exists o,
    Do 6 (NewClient (Fixtures.recovers_after 2) [])
       Fixtures.get_request 5 0 Fixtures.no_jitter = Returned o /\
    o_tries o = sends o /\ 1 <= o_tries o <= 5.
Proof.
  apply (Do_tries_counts_sends
           (NewClient (Fixtures.recovers_after 2) [])
           5 Fixtures.get_request 0 Fixtures.no_jitter 6).
  - int_lit.
  - cbn. lia.
Defined.

(** A server that always answers 500, [maxTries = 5]: five attempts and
    the last 500 returned. *)
Lemma Do_exhausts_witness :
  exists o,
    Do 6 (NewClient (Fixtures.always_status 500) [])
       Fixtures.get_request 5 0 Fixtures.no_jitter = Returned o /\
    o_tries o = 5 /\ sends o = 5 /\ status (o_res o) = 500.
Proof.
  destruct (Do_exhausts
              (NewClient (Fixtures.always_status 500) [])
              5 Fixtures.get_request 0 Fixtures.no_jitter 6)
    as (o & s & s' & HDo & Ht & Hs & _).
  - int_lit.
  - intros n s s' Hn Hrun Ha.
    do 5 (destruct n as [| n];
          [ vm_compute in Hrun; injection Hrun as <-;
            vm_compute in Ha; injection Ha as <-; reflexivity |]).
    lia.
  - cbn. lia.
  - exists o. repeat split; try assumption.
    vm_compute in HDo. injection HDo as <-. reflexivity.
Defined.

(** The second attempt of a POST is sent with the body [GetBody] has
    just produced. *)
Lemma Do_resets_body_witness :
  exists s s',
    run 1 (NewClient (Fixtures.always_status 500) []) 5
        (entry Fixtures.post_request 0 Fixtures.no_jitter) = Running s /\
    attempt (NewClient (Fixtures.always_status 500) []) s = Some s' /\
    Body (req s) = Some 0 /\
    Body (req s') = Some 1001 /\
    hd_error (sent (env s')) = Some (req s', res s').
Proof.
  eexists. eexists.
  split; [reflexivity |]. split; [reflexivity |]. split; [reflexivity |].
  destruct (Do_resets_body
              (NewClient (Fixtures.always_status 500) [])
              5 Fixtures.post_request 0 Fixtures.no_jitter 2 _ _
              ltac:(lia) ltac:(int_lit) eq_refl eq_refl)
    as (w1 & _ & Hhd & Hfresh & _).
  destruct (Hfresh ltac:(lia) _ _ eq_refl eq_refl) as (Hbody & _ & _).
  split; [exact Hbody | exact Hhd].
Defined.

(** *** [maxTries] at the largest [int]

    The condition [tries <= maxTries] then holds for every [int], and
    [tries++] wraps around from the largest to the smallest. *)

Lemma wrap_wrap_add (x y : Z) :
  GoInt.wrap (GoInt.wrap x + y) = GoInt.wrap (x + y).
Proof.
  replace (GoInt.wrap x + y) with (GoInt.wrap x - - y) by ring.
  rewrite wrap_wrap_sub. f_equal. ring.
Qed.

(** One turn against a server that answers 500 to the requests numbered
    below [n]: the counter, the number of requests received and the
    length of the trace all move by one. *)
Lemma recovering_turn (n j : Z) (s : loop_state Z unit) :
  tries s = GoInt.wrap (1 + j) ->
  world (env s) = j ->
  Z.of_nat (List.length (sent (env s))) = j ->
  Body (req s) = None ->
  j < n ->
  exists s',
    iteration (NewClient (Fixtures.recovers_after n) [])
      GoInt.max_int s = Running s' /\
    tries s' = GoInt.wrap (1 + (j + 1)) /\
    world (env s') = j + 1 /\
    Z.of_nat (List.length (sent (env s'))) = j + 1 /\
    Body (req s') = None.
Proof.
  intros Ht Hw Hlen Hbody Hj.
  set (c := NewClient (Fixtures.recovers_after n) []).
  destruct (attempt_inv c s) as (s' & w1 & Ha & Ht' & Hreset & Hsend & Hsent).
  unfold reset_body in Hreset. rewrite Hbody in Hreset.
  injection Hreset as Hreq <-.
  cbn in Hsend. injection Hsend as Hres Hworld.
  rewrite Hw in *.
  destruct (Z.ltb_spec j n) as [_ | ?]; [| lia].
  exists (next_try s'). split; [| repeat split].
  - apply iteration_retry; [| exact Ha | now rewrite <- Hres].
    rewrite Ht. pose proof (wrap_in_int (1 + j)) as Hin.
    unfold GoInt.in_int in Hin. lia.
  - cbn [next_try tries]. rewrite Ht', Ht. unfold GoInt.add.
    rewrite wrap_wrap_add. f_equal. ring.
  - cbn [next_try env]. now rewrite <- Hworld.
  - cbn [next_try env]. rewrite Hsent. cbn [List.length]. lia.
  - cbn [next_try req]. now rewrite <- Hreq.
Qed.

Lemma recovering_run (n : Z) (k : nat) :
  forall (j : Z) (s : loop_state Z unit),
  tries s = GoInt.wrap (1 + j) ->
  world (env s) = j ->
  Z.of_nat (List.length (sent (env s))) = j ->
  Body (req s) = None ->
  j + Z.of_nat k <= n ->
  exists s',
    run k (NewClient (Fixtures.recovers_after n) [])
      GoInt.max_int s = Running s' /\
    tries s' = GoInt.wrap (1 + (j + Z.of_nat k)) /\
    world (env s') = j + Z.of_nat k /\
    Z.of_nat (List.length (sent (env s'))) = j + Z.of_nat k /\
    Body (req s') = None.
Proof.
  induction k as [| k IH]; intros j s Ht Hw Hlen Hbody Hk.
  - exists s. rewrite Z.add_0_r. cbn [run]. auto.
  - destruct (recovering_turn n j s Ht Hw Hlen Hbody ltac:(lia))
      as (s1 & Hit & Ht1 & Hw1 & Hlen1 & Hbody1).
    destruct (IH (j + 1) s1 Ht1 Hw1 Hlen1 Hbody1 ltac:(lia))
      as (s' & Hrun & Ht' & Hw' & Hlen' & Hbody').
    exists s'. cbn [run]. rewrite Hit.
    replace (j + Z.of_nat (S k)) with (j + 1 + Z.of_nat k) by lia.
    auto.
Qed.

(** The turn in which that server answers 200. *)
Lemma recovered_turn (n : Z) (s : loop_state Z unit) :
  tries s = GoInt.wrap (1 + n) ->
  world (env s) = n ->
  Z.of_nat (List.length (sent (env s))) = n ->
  Body (req s) = None ->
  exists o,
    iteration (NewClient (Fixtures.recovers_after n) [])
      GoInt.max_int s = Returned o /\
    o_tries o = GoInt.wrap (1 + n) /\
    status (o_res o) = 200 /\
    sends o = n + 1.
Proof.
  intros Ht Hw Hlen Hbody.
  set (c := NewClient (Fixtures.recovers_after n) []).
  destruct (attempt_inv c s) as (s' & w1 & Ha & Ht' & Hreset & Hsend & Hsent).
  unfold reset_body in Hreset. rewrite Hbody in Hreset.
  injection Hreset as Hreq <-.
  cbn in Hsend. injection Hsend as Hres Hworld.
  rewrite Hw, Z.ltb_irrefl in Hres.
  exists (returning (tries s) s'). split; [| repeat split].
  - apply iteration_stop; [| exact Ha | now rewrite <- Hres].
    rewrite Ht. pose proof (wrap_in_int (1 + n)) as Hin.
    unfold GoInt.in_int in Hin. lia.
  - exact Ht.
  - cbn [returning o_res]. now rewrite <- Hres.
  - unfold sends. cbn [returning o_env]. rewrite Hsent.
    cbn [List.length]. lia.
Qed.

(** C4 as stated fails at [maxTries] = the largest [int]: against a
    server that answers 500 to its first 2^64 requests and 200 to the
    next, [Do] returns [tries = 1] after 2^64 + 1 requests. *)
Lemma Do_miscounts_at_max_int :
  1 <= GoInt.max_int /\
  exists fuel o,
    Do fuel (NewClient (Fixtures.recovers_after 18446744073709551616) [])
       Fixtures.get_request GoInt.max_int 0 Fixtures.no_jitter = Returned o /\
    o_tries o = 1 /\
    sends o = 18446744073709551617 /\
    o_tries o <> sends o.
Proof.
  split; [int_lit |].
  assert (Hk : exists k : nat, Z.of_nat k = 18446744073709551616).
  { exists (Z.to_nat 18446744073709551616). apply Z2Nat.id. lia. }
  destruct Hk as [k Hk].
  destruct (recovering_run 18446744073709551616 k 0
              (entry Fixtures.get_request 0 Fixtures.no_jitter))
    as (s & Hrun & Ht & Hw & Hlen & Hbody);
    try reflexivity; [lia |].
  rewrite Z.add_0_l, Hk in Ht, Hw, Hlen.
  destruct (recovered_turn 18446744073709551616 s Ht Hw Hlen Hbody)
    as (o & Hit & Hto & _ & Hs).
  exists (S k), o. unfold Do. rewrite run_last, Hrun, Hit.
  change (GoInt.wrap (1 + 18446744073709551616)) with 1 in Hto.
  repeat split; try assumption. lia.
Qed.

(** C2 as stated fails at [maxTries] = the largest [int]: against a
    server that always answers 500, every attempt ends in a verdict to
    retry and [Do] never returns. *)
Lemma Do_never_returns_at_max_int :
  let c := NewClient (Fixtures.always_status 500) [] in
  1 <= GoInt.max_int /\
  (forall rq w,
     retry_verdict c (fst (RequestWithClose (cl c) rq w)) = true) /\
  forall fuel, exists s,
    Do fuel c Fixtures.get_request GoInt.max_int 0 Fixtures.no_jitter
      = Running s.
Proof.
  intro c. split; [int_lit |]. split; [reflexivity |].
  assert (Hloop : forall fuel (s : loop_state Z unit),
            GoInt.in_int (tries s) ->
            exists s', run fuel c GoInt.max_int s = Running s').
  { induction fuel as [| fuel IH]; intros s Hs.
    - exists s. reflexivity.
    - destruct (attempt_total c s) as [s' Ha].
      cbn [run]. rewrite (iteration_retry c GoInt.max_int s s').
      + apply IH. cbn [next_try tries]. apply wrap_in_int.
      + unfold GoInt.in_int in Hs. lia.
      + exact Ha.
      + destruct (attempt_inv c s) as (s1 & w1 & Ha1 & _ & _ & Hsend & _).
        assert (s1 = s') by congruence. subst s1.
        cbn in Hsend. injection Hsend as Hres _. now rewrite <- Hres. }
  intro fuel. apply Hloop. int_lit.
Qed.

(** * Further properties *)

(** ** The loop of [Do], whatever [maxTries] *)

Section Loop_facts.

Context {W B R : Type}.
Variable c : client W B R.
Variable maxTries : Z.

Lemma iteration_returned_inv (s : loop_state W B) (o : outcome W B) :
  iteration c maxTries s = Returned o ->
  (maxTries < tries s /\ o = returning (GoInt.sub (tries s) 1) s) \/
  (tries s <= maxTries /\
   exists s', attempt c s = Some s' /\
              retry_verdict c (res s') = false /\
              o = returning (tries s) s').
Proof.
  intro H. destruct (Z.le_gt_cases (tries s) maxTries) as [Hle | Hgt].
  - right. split; [exact Hle |].
    destruct (attempt_total c s) as [s' Ha]. exists s'.
    destruct (retry_verdict c (res s')) eqn:Hv.
    + rewrite (iteration_retry c maxTries s s' Hle Ha Hv) in H. discriminate.
    + rewrite (iteration_stop c maxTries s s' Hle Ha Hv) in H.
      injection H as <-. auto.
  - left. rewrite (iteration_exit c maxTries s Hgt) in H.
    injection H as <-. auto.
Qed.

(** A returned call left the loop at some turn. *)
Lemma run_returned_inv (n : nat) (s0 : loop_state W B) (o : outcome W B) :
  run n c maxTries s0 = Returned o ->
  exists (m : nat) (s : loop_state W B),
    (m < n)%nat /\
    run m c maxTries s0 = Running s /\
    iteration c maxTries s = Returned o.
Proof.
  induction n as [| n IH]; intro H.
  - discriminate.
  - rewrite run_last in H.
    destruct (run n c maxTries s0) as [s | o' |] eqn:Hn; try discriminate.
    + exists n, s. auto.
    + destruct (IH H) as (m & s & Hm & Hrun & Hit).
      exists m, s. repeat split; auto.
Qed.

(** Induction over the states the loop goes through. *)
Lemma run_invariant (P : loop_state W B -> Prop) (s0 : loop_state W B) :
  P s0 ->
  (forall s s', P s -> iteration c maxTries s = Running s' -> P s') ->
  forall n s, run n c maxTries s0 = Running s -> P s.
Proof.
  intros H0 Hstep. induction n as [| n IH]; intros s H.
  - injection H as <-. exact H0.
  - rewrite run_last in H.
    destruct (run n c maxTries s0) as [s1 | |] eqn:Hn; try discriminate.
    apply (Hstep s1 s); auto.
Qed.

Lemma run_no_panic (n : nat) (s : loop_state W B) :
  run n c maxTries s <> Panicked.
Proof.
  revert s. induction n as [| n IH]; intro s; cbn [run]; [discriminate |].
  destruct (iteration c maxTries s) as [s1 | o |] eqn:Hit;
    [apply IH | discriminate |].
  unfold iteration in Hit.
  destruct (tries s <=? maxTries); [| discriminate].
  destruct (attempt_total c s) as [s' Ha]. rewrite Ha in Hit.
  destruct (retry_verdict c (res s')); discriminate.
Qed.

Lemma reachable_in_int (rq : Request W B) (w : W) (rnd : nat -> Z)
  (n : nat) (s : loop_state W B) :
  run n c maxTries (entry rq w rnd) = Running s -> GoInt.in_int (tries s).
Proof.
  apply (run_invariant (fun s => GoInt.in_int (tries s))).
  - cbn. int_unfold. lia.
  - intros s1 s2 _ Hit.
    apply iteration_running_inv in Hit as (_ & s' & _ & _ & ->).
    cbn [next_try tries]. apply wrap_in_int.
Qed.

(** What the variables of the loop hold after at least one request: the
    request as last sent, what [RequestWithClose] returned for it, and
    the world as that call left it. *)
Lemma reachable_last_request (rq : Request W B) (w : W) (rnd : nat -> Z)
  (n : nat) (s : loop_state W B) :
  run n c maxTries (entry rq w rnd) = Running s ->
  s = entry rq w rnd \/
  (retry_verdict c (res s) = true /\
   hd_error (sent (env s)) = Some (req s, res s) /\
   exists w1,
     RequestWithClose (cl c) (req s) w1 = (res s, world (env s))).
Proof.
  apply (run_invariant (fun s =>
    s = entry rq w rnd \/
    (retry_verdict c (res s) = true /\
     hd_error (sent (env s)) = Some (req s, res s) /\
     exists w1,
       RequestWithClose (cl c) (req s) w1 = (res s, world (env s))))).
  - now left.
  - intros s1 s2 _ Hit. right.
    apply iteration_running_inv in Hit as (_ & s' & Ha & Hv & ->).
    destruct (attempt_inv c s1) as (s1' & w1 & Ha' & _ & _ & Hsend & Hsent).
    assert (s1' = s') by congruence. subst s1'.
    cbn [next_try res req env]. rewrite Hsent. eauto.
Qed.

(** A call that leaves the loop through its condition does so in the
    first pass of the counter. *)
Lemma exit_in_first_pass (rq : Request W B) (w : W) (rnd : nat -> Z)
  (n : nat) (s : loop_state W B) :
  run n c maxTries (entry rq w rnd) = Running s ->
  maxTries < tries s ->
  Z.of_nat n < GoInt.max_int.
Proof.
  intros Hrun Hexit.
  pose proof (reachable_in_int rq w rnd n s Hrun) as Hin.
  assert (Hmax : GoInt.max_int = 9223372036854775807) by reflexivity.
  destruct (Z.lt_ge_cases (Z.of_nat n) GoInt.max_int) as [Hlt | Hge];
    [exact Hlt | exfalso].
  destruct (run_running_prefix c maxTries (S (Z.to_nat (GoInt.max_int - 1)))
              n _ s Hrun ltac:(lia)) as [s1 Hs1].
  rewrite run_last in Hs1.
  destruct (run (Z.to_nat (GoInt.max_int - 1)) c maxTries (entry rq w rnd))
    as [s0 | |] eqn:Hs0; try discriminate.
  destruct (run_first_pass c maxTries rq w rnd _ s0 Hs0 ltac:(lia))
    as (Ht & _ & _).
  apply iteration_running_inv in Hs1 as (Hle & _).
  unfold GoInt.in_int in Hin. lia.
Qed.

End Loop_facts.

Section Do_outcomes.

Context {W B R : Type}.
Variable c : client W B R.
Variable rq : Request W B.
Variable w : W.
Variable rnd : nat -> Z.

(** X1. With [maxTries <= 0] the loop body never runs: [Do] returns
    [tries = 0] and the zero values of its results without sleeping,
    drawing a random number or issuing a request, and leaves the request
    and the world as they were. *)
Theorem Do_without_attempts (maxTries : Z) (fuel : nat) :
  maxTries <= 0 ->
  (0 < fuel)%nat ->
  Do fuel c rq maxTries w rnd =
    Returned {| o_tries := 0;
                o_res := {| status := 0; body := None; err := None |};
                o_req := rq;
                o_env := {| world := w; rand := rnd;
                            slept := []; sent := [] |} |}.
Proof.
  intros Hmax Hfuel. destruct fuel as [| fuel]; [lia |].
  unfold Do. cbn [run].
  rewrite iteration_exit by (cbn; lia). reflexivity.
Qed.

(** X2. [rand.Intn] never panics inside [Do]: whatever the [Backoff]
    holds (zero, negative or overflowing values included) and whatever
    [maxTries] is, the argument handed to it is positive at every turn
    of the loop. *)
Theorem Do_never_panics (maxTries : Z) (fuel : nat) :
  Do fuel c rq maxTries w rnd <> Panicked.
Proof. apply run_no_panic. Qed.

(** X3. For [maxTries >= 1], whichever way [Do] returns, its results are
    those of the last request issued: the head of the trace is the
    request as [Do] hands it back with the returned status, body and
    error, and the world is as that last [RequestWithClose] left it. *)
Theorem Do_returns_last_request (maxTries : Z) (fuel : nat) (o : outcome W B) :
  1 <= maxTries ->
  Do fuel c rq maxTries w rnd = Returned o ->
  hd_error (sent (o_env o)) = Some (o_req o, o_res o) /\
  exists w1,
    RequestWithClose (cl c) (o_req o) w1 = (o_res o, world (o_env o)).
Proof.
  intros Hmax HDo.
  apply run_returned_inv in HDo as (m & s & _ & Hrun & Hit).
  apply iteration_returned_inv in Hit as [[Hexit ->] | (_ & s' & Ha & _ & ->)].
  - destruct (reachable_last_request c maxTries rq w rnd m s Hrun)
      as [-> | (_ & Hhd & Hsend)].
    + cbn in Hexit. lia.
    + cbn [returning o_env o_req o_res]. auto.
  - destruct (attempt_inv c s) as (s1 & w1 & Ha' & _ & _ & Hsend & Hsent).
    assert (s1 = s') by congruence. subst s1.
    cbn [returning o_env o_req o_res]. rewrite Hsent. eauto.
Qed.

(** X4. A result that the retry policy would retry is returned only when
    the attempts are used up: then [tries = maxTries] and exactly
    [maxTries] requests were issued.  So a call that returns with
    [tries < maxTries] carries a settled result. *)
Theorem Do_retryable_result_means_exhausted
  (maxTries : Z) (fuel : nat) (o : outcome W B) :
  GoInt.in_int maxTries ->
  Do fuel c rq maxTries w rnd = Returned o ->
  (retry_verdict c (o_res o) = true ->
   o_tries o = maxTries /\ sends o = maxTries) /\
  (o_tries o < maxTries -> retry_verdict c (o_res o) = false).
Proof.
  intros Hint HDo.
  assert (Hmain : retry_verdict c (o_res o) = true ->
                  o_tries o = maxTries /\ sends o = maxTries).
  { intro Hv.
    apply run_returned_inv in HDo as (m & s & _ & Hrun & Hit).
    apply iteration_returned_inv in Hit
      as [[Hexit ->] | (_ & s' & _ & Hv' & ->)].
    - pose proof (exit_in_first_pass c maxTries rq w rnd m s Hrun Hexit) as Hm.
      destruct (run_first_pass c maxTries rq w rnd m s Hrun Hm)
        as (Ht & Hlen & Hle).
      destruct m as [| m].
      + injection Hrun as <-. cbn in Hv. discriminate.
      + specialize (Hle ltac:(discriminate)).
        unfold sends. cbn [returning o_tries o_env]. rewrite Hlen, Ht.
        unfold GoInt.sub. rewrite wrap_id; [lia |].
        unfold GoInt.in_int in *. lia.
    - cbn [returning o_res] in Hv. congruence. }
  split; [exact Hmain |].
  intro Hlt. destruct (retry_verdict c (o_res o)); [| reflexivity].
  destruct (Hmain eq_refl). lia.
Qed.

End Do_outcomes.

Lemma Do_returns_last_request_witness :
  exists o,
    Do 6 (NewClient (Tracking.flaky 2) []) Tracking.fragile_post 5
       Tracking.fresh Fixtures.no_jitter = Returned o /\
    hd_error (sent (o_env o)) = Some (o_req o, o_res o) /\
    o_tries o = 5 /\ status (o_res o) = 200 /\
    err (o_res o) = Some (PlainError "unexpected EOF") /\
    Body (o_req o) = None.
Proof.
  eexists. split; [vm_compute; reflexivity |].
  split; [| repeat split].
  apply (Do_returns_last_request
           (NewClient (Tracking.flaky 2) []) Tracking.fragile_post
           Tracking.fresh Fixtures.no_jitter 5 6);
    [lia | vm_compute; reflexivity].
Defined.

Lemma Do_retryable_result_means_exhausted_witness :
  exists o,
    Do 4 (NewClient (Tracking.unreachable) [TimeoutOnly])
       Tracking.plain_get 3 Tracking.fresh Fixtures.no_jitter = Returned o /\
    IsTimeoutErr (err (o_res o)) = true /\
    o_tries o = 3 /\ sends o = 3.
Proof.
  eexists. split; [vm_compute; reflexivity |].
  split; [reflexivity |].
  apply (Do_retryable_result_means_exhausted
           (NewClient (Tracking.unreachable) [TimeoutOnly])
           Tracking.plain_get Tracking.fresh Fixtures.no_jitter 3 4);
    [int_lit | vm_compute; reflexivity | reflexivity].
Defined.

Lemma Do_without_attempts_witness :
  Do 1 (NewClient (Tracking.flaky 2) []) Tracking.fragile_post (-3)
     Tracking.fresh Fixtures.no_jitter =
  Returned {| o_tries := 0;
              o_res := {| status := 0; body := None; err := None |};
              o_req := Tracking.fragile_post;
              o_env := {| world := Tracking.fresh;
                          rand := Fixtures.no_jitter;
                          slept := []; sent := [] |} |}.
Proof.
  apply (Do_without_attempts
           (NewClient (Tracking.flaky 2) []) Tracking.fragile_post
           Tracking.fresh Fixtures.no_jitter (-3) 1); lia.
Defined.

(** ** What [maxTries] and the request mean to a call *)

Section Do_budget.

Context {W B R : Type}.
Variable c : client W B R.

Lemma run_settled_budget (m m' : Z) (o : outcome W B) :
  m <= m' ->
  retry_verdict c (o_res o) = false ->
  forall (fuel : nat) (s : loop_state W B),
    tries s <= m \/ retry_verdict c (res s) = true ->
    run fuel c m s = Returned o ->
    run fuel c m' s = Returned o.
Proof.
  intros Hm Hv. induction fuel as [| fuel IH]; intros s Hs Hrun.
  - discriminate.
  - cbn [run] in *.
    destruct (iteration c m s) as [s1 | o1 |] eqn:Hit; try discriminate.
    + apply iteration_running_inv in Hit as (Hle & s' & Ha & Hv' & ->).
      rewrite (iteration_retry c m' s s') by (auto; lia).
      apply IH; [| exact Hrun]. right. exact Hv'.
    + injection Hrun as ->.
      apply iteration_returned_inv in Hit
        as [[Hexit ->] | (Hle & s' & Ha & Hv' & ->)].
      * cbn [returning o_res] in Hv. destruct Hs; [lia | congruence].
      * rewrite (iteration_stop c m' s s') by (auto; lia). reflexivity.
Qed.

(** X5. A settled result does not depend on the budget: when [Do]
    returns, with [maxTries = m >= 1], a result that the retry policy
    would not retry, it returns the very same outcome (counter, result,
    request, world and traces) with any larger [maxTries]. *)
Theorem Do_settled_whatever_budget
  (rq : Request W B) (w : W) (rnd : nat -> Z)
  (m m' : Z) (fuel : nat) (o : outcome W B) :
  1 <= m <= m' ->
  Do fuel c rq m w rnd = Returned o ->
  retry_verdict c (o_res o) = false ->
  Do fuel c rq m' w rnd = Returned o.
Proof.
  intros Hm HDo Hv. unfold Do in *.
  apply (run_settled_budget m m' o); auto; try lia.
  left. cbn. lia.
Qed.

Lemma reset_body_GetBody (t : Z) (r : Request W B) (w : W) :
  GetBody (fst (reset_body t r w)) = GetBody r.
Proof.
  unfold reset_body.
  destruct (Body r); destruct (GetBody r) as [get |] eqn:Hg;
    cbn; try congruence.
  destruct (t >? 1); cbn; [| congruence].
  destruct (get w) as [[b' e] w']. cbn. congruence.
Qed.

Lemma reset_body_noop (t : Z) (r : Request W B) (w : W) :
  Body r = None \/ GetBody r = None ->
  reset_body t r w = (r, w).
Proof.
  unfold reset_body. intros [Hb | Hg].
  - now rewrite Hb.
  - rewrite Hg. now destruct (Body r).
Qed.

(** What holds of the request all along a call. *)
Lemma reachable_request (maxTries : Z)
  (rq : Request W B) (w : W) (rnd : nat -> Z)
  (n : nat) (s : loop_state W B) :
  run n c maxTries (entry rq w rnd) = Running s ->
  GetBody (req s) = GetBody rq /\
  (Body rq = None \/ GetBody rq = None ->
   req s = rq /\ Forall (fun e => fst e = rq) (sent (env s))).
Proof.
  apply (run_invariant c maxTries (fun s =>
    GetBody (req s) = GetBody rq /\
    (Body rq = None \/ GetBody rq = None ->
     req s = rq /\ Forall (fun e => fst e = rq) (sent (env s))))).
  - cbn. auto.
  - intros s1 s2 [Hget Hsame] Hit.
    apply iteration_running_inv in Hit as (_ & s' & Ha & _ & ->).
    destruct (attempt_inv c s1) as (s1' & w1 & Ha' & _ & Hreset & _ & Hsent).
    assert (s1' = s') by congruence. subst s1'.
    cbn [next_try req env]. split.
    + pose proof (reset_body_GetBody (tries s1) (req s1) (world (env s1))) as H.
      rewrite Hreset in H. cbn in H. congruence.
    + intro Hno. destruct (Hsame Hno) as [Hreq Hall].
      rewrite reset_body_noop in Hreset by (rewrite Hreq; exact Hno).
      injection Hreset as Hreq' _. rewrite Hsent.
      split; [congruence |]. constructor; [cbn; congruence | exact Hall].
Qed.

(** X6. [Do] never changes [GetBody]; and a request without a [Body] or
    without a [GetBody] is handed back exactly as it was given, every
    request of the call having been issued with it. *)
Theorem Do_keeps_request (maxTries : Z)
  (rq : Request W B) (w : W) (rnd : nat -> Z)
  (fuel : nat) (o : outcome W B) :
  Do fuel c rq maxTries w rnd = Returned o ->
  GetBody (o_req o) = GetBody rq /\
  (Body rq = None \/ GetBody rq = None ->
   o_req o = rq /\ Forall (fun e => fst e = rq) (sent (o_env o))).
Proof.
  intro HDo.
  apply run_returned_inv in HDo as (m & s & _ & Hrun & Hit).
  destruct (reachable_request maxTries rq w rnd m s Hrun) as [Hget Hsame].
  apply iteration_returned_inv in Hit as [[_ ->] | (_ & s' & Ha & _ & ->)].
  - cbn [returning o_req o_env]. auto.
  - destruct (attempt_inv c s) as (s1 & w1 & Ha' & _ & Hreset & _ & Hsent).
    assert (s1 = s') by congruence. subst s1.
    cbn [returning o_req o_env]. split.
    + pose proof (reset_body_GetBody (tries s) (req s) (world (env s))) as H.
      rewrite Hreset in H. cbn in H. congruence.
    + intro Hno. destruct (Hsame Hno) as [Hreq Hall].
      rewrite reset_body_noop in Hreset by (rewrite Hreq; exact Hno).
      injection Hreset as Hreq' _. rewrite Hsent.
      split; [congruence |]. constructor; [cbn; congruence | exact Hall].
Qed.

End Do_budget.

(** A call that succeeds at its fourth request within a budget of 5
    gives the same outcome with a budget of 50. *)
Lemma Do_settled_whatever_budget_witness :
  Do 6 (NewClient (Fixtures.recovers_after 3) []) Fixtures.get_request 50 0
     Fixtures.no_jitter =
  Do 6 (NewClient (Fixtures.recovers_after 3) []) Fixtures.get_request 5 0
     Fixtures.no_jitter.
Proof.
  assert (H : exists o,
    Do 6 (NewClient (Fixtures.recovers_after 3) []) Fixtures.get_request 5 0
       Fixtures.no_jitter = Returned o /\
    retry_verdict (NewClient (Fixtures.recovers_after (B:=unit) 3) [])
      (o_res o) = false).
  { eexists. split; [vm_compute; reflexivity | reflexivity]. }
  destruct H as (o & HDo & Hv). rewrite HDo.
  apply (Do_settled_whatever_budget
           (NewClient (Fixtures.recovers_after 3) []) Fixtures.get_request 0
           Fixtures.no_jitter 5 50 6 o); [lia | exact HDo | exact Hv].
Defined.

Lemma Do_keeps_request_witness :
  exists o,
    Do 4 (NewClient (Tracking.unreachable) []) Tracking.plain_get 3
       Tracking.fresh Fixtures.no_jitter = Returned o /\
    o_req o = Tracking.plain_get /\
    Forall (fun e => fst e = Tracking.plain_get) (sent (o_env o)).
Proof.
  eexists. split; [vm_compute; reflexivity |].
  apply (Do_keeps_request
           (NewClient (Tracking.unreachable) []) 3 Tracking.plain_get
           Tracking.fresh Fixtures.no_jitter 4);
    [vm_compute; reflexivity | left; reflexivity].
Defined.

(** ** Backoff, in [Next] and along a call *)

(** X7. Whatever the configuration, the previous delay and the draw, the
    result of [Next] never exceeds [MaxSleep]: the cap holds even where
    the arithmetic wraps around and the lower bound is lost. *)
Theorem Next_capped (b : Backoff) (raw previous : Z) :
  exists delay, Next b raw previous = Some delay /\ delay <= MaxSleep b.
Proof.
  destruct (Next_shape b raw previous) as [_ ->].
  eexists. split; [reflexivity |].
  match goal with |- context [?x >? ?y] => destruct (Z.gtb_spec x y) end; lia.
Qed.

Lemma Next_small_step (b : Backoff) (raw previous delay : Z) :
  0 < BaseSleep b ->
  GoInt.in_int (BaseSleep b) ->
  0 <= previous ->
  previous * 3 <= GoInt.max_int ->
  Next b raw previous = Some delay ->
  delay <= MaxSleep b /\
  (BaseSleep b <= MaxSleep b -> BaseSleep b <= delay) /\
  delay <= Z.max (BaseSleep b) (previous * 3 - 1).
Proof.
  intros Hbase Hint Hprev Hmul HN.
  destruct (Next_shape b raw previous) as [Hdiff HN'].
  rewrite HN' in HN. clear HN'. injection HN as <-.
  rewrite (sub_mul_exact previous 3 (BaseSleep b)) in * by (int_unfold; lia).
  set (diff := if previous * 3 - BaseSleep b <=? 0 then 1
               else previous * 3 - BaseSleep b) in *.
  pose proof (Z.mod_pos_bound raw diff Hdiff) as Hr.
  assert (Hcases : diff = 1 \/ diff = previous * 3 - BaseSleep b).
  { unfold diff. destruct (previous * 3 - BaseSleep b <=? 0); auto. }
  assert (Hs : GoInt.add (raw mod diff) (BaseSleep b)
               = raw mod diff + BaseSleep b).
  { unfold GoInt.add. apply wrap_id. clearbody diff.
    generalize dependent (raw mod diff). intros r Hr.
    int_unfold. lia. }
  rewrite Hs.
  destruct (Z.gtb_spec (raw mod diff + BaseSleep b) (MaxSleep b)); lia.
Qed.

(** X8. Where nothing overflows ([previous >= 0], [previous*3] within
    [int]) the next delay is below three times the previous one, or is
    [BaseSleep] when that is larger: delays grow by less than a factor
    of 3 from one attempt to the next. *)
Theorem Next_growth (b : Backoff) (raw previous : Z) :
  0 < BaseSleep b ->
  GoInt.in_int (BaseSleep b) ->
  0 <= previous ->
  previous * 3 <= GoInt.max_int ->
  exists delay,
    Next b raw previous = Some delay /\
    delay <= Z.max (BaseSleep b) (previous * 3 - 1).
Proof.
  intros Hbase Hint Hprev Hmul.
  destruct (Next_never_panics b raw previous) as [delay HN].
  exists delay. split; [exact HN |].
  now apply (Next_small_step b raw previous delay).
Qed.

Lemma Next_growth_witness :
  exists delay,
    Next Fixtures.default_backoff 987654321 150 = Some delay /\
    delay <= 449.
Proof.
  apply (Next_growth Fixtures.default_backoff 987654321 150);
    cbn; int_unfold; lia.
Defined.

Section Do_backoff.

Context {W B R : Type}.
Variable c : client W B R.
Variable maxTries : Z.
Variable rq : Request W B.
Variable w : W.
Variable rnd : nat -> Z.

Lemma attempt_backoff (s s' : loop_state W B) :
  attempt c s = Some s' ->
  slept (env s') = GoInt.mul (wait s) Millisecond :: slept (env s) /\
  Next (bk c) (rand (env s) 0%nat) (wait s) = Some (wait s').
Proof.
  unfold attempt.
  destruct (Next (bk c) (rand (env s) 0%nat) (wait s)) as [d |];
    [| discriminate].
  destruct (reset_body (tries s) (req s) (world (env s))) as [r1 w1].
  destruct (RequestWithClose (cl c) r1 w1) as [r2 w2].
  intros [= <-]. cbn. auto.
Qed.

Lemma reachable_sleeps (n : nat) (s : loop_state W B) :
  run n c maxTries (entry rq w rnd) = Running s ->
  List.length (slept (env s)) = List.length (sent (env s)) /\
  ((slept (env s) = [] /\ wait s = 0) \/
   exists rest, slept (env s) = rest ++ [0]).
Proof.
  apply (run_invariant c maxTries (fun s =>
    List.length (slept (env s)) = List.length (sent (env s)) /\
    ((slept (env s) = [] /\ wait s = 0) \/
     exists rest, slept (env s) = rest ++ [0]))).
  - cbn. auto.
  - intros s1 s2 [Hlen Hfirst] Hit.
    apply iteration_running_inv in Hit as (_ & s' & Ha & _ & ->).
    destruct (attempt_backoff s1 s' Ha) as [Hsl _].
    cbn [next_try env]. rewrite Hsl, (attempt_sent c _ _ Ha).
    split; [cbn [List.length]; lia |]. right.
    destruct Hfirst as [[-> ->] | [rest ->]].
    + exists []. reflexivity.
    + eexists (_ :: rest). reflexivity.
Qed.

(** X9. [Do] calls [time.Sleep] as many times as it issues requests, one
    sleep for each attempt, and the earliest of these sleeps is of zero
    duration.  (Sleeps and requests are kept in two traces; how they
    interleave is not part of the statement.) *)
Theorem Do_sleeps_once_per_request (fuel : nat) (o : outcome W B) :
  Do fuel c rq maxTries w rnd = Returned o ->
  List.length (slept (o_env o)) = List.length (sent (o_env o)) /\
  (sent (o_env o) <> [] -> exists rest, slept (o_env o) = rest ++ [0]).
Proof.
  intro HDo.
  apply run_returned_inv in HDo as (m & s & _ & Hrun & Hit).
  destruct (reachable_sleeps m s Hrun) as [Hlen Hfirst].
  apply iteration_returned_inv in Hit as [[_ ->] | (_ & s' & Ha & _ & ->)];
    cbn [returning o_env].
  - split; [exact Hlen |]. intro Hsent.
    destruct Hfirst as [[Hnil _] | Hrest]; [| exact Hrest].
    rewrite Hnil in Hlen. destruct (sent (env s)); [congruence | discriminate].
  - destruct (attempt_backoff s s' Ha) as [Hsl _].
    rewrite Hsl, (attempt_sent c _ _ Ha).
    split; [cbn [List.length]; lia |]. intros _.
    destruct Hfirst as [[-> ->] | [rest ->]].
    + exists []. reflexivity.
    + eexists (_ :: rest). reflexivity.
Qed.

(** X10. The schedule of waits.  With [0 < BaseSleep <= MaxSleep] and
    [MaxSleep] milliseconds within the range of [int] nanoseconds, after
    [n + 1] attempts that ended in a retry the wait before the next
    request lies between [BaseSleep] and the smaller of [MaxSleep] and
    [BaseSleep * 3^n], whatever the random source (so the first retry
    waits exactly [BaseSleep]), and that many milliseconds are handed to
    [time.Sleep]. *)
Theorem Do_backoff_schedule (n : nat) (s : loop_state W B) :
  0 < BaseSleep (bk c) ->
  BaseSleep (bk c) <= MaxSleep (bk c) ->
  MaxSleep (bk c) * Millisecond <= GoInt.max_int ->
  run (S n) c maxTries (entry rq w rnd) = Running s ->
  BaseSleep (bk c) <= wait s <=
    Z.min (MaxSleep (bk c)) (BaseSleep (bk c) * 3 ^ Z.of_nat n) /\
  forall s', attempt c s = Some s' ->
             hd_error (slept (env s')) = Some (wait s * Millisecond).
Proof.
  intros Hbase Hmax Hns.
  assert (Hmax3 : MaxSleep (bk c) * 3 <= GoInt.max_int).
  { unfold Millisecond in Hns. lia. }
  assert (Hint : GoInt.in_int (BaseSleep (bk c))).
  { unfold Millisecond in Hns. int_unfold. lia. }
  assert (Hwait : forall (k : nat) (s1 : loop_state W B),
            run (S k) c maxTries (entry rq w rnd) = Running s1 ->
            BaseSleep (bk c) <= wait s1 <=
              Z.min (MaxSleep (bk c)) (BaseSleep (bk c) * 3 ^ Z.of_nat k)).
  { induction k as [| k IH]; intros s1 Hrun; rewrite run_last in Hrun.
    - cbn [run] in Hrun.
      apply iteration_running_inv in Hrun as (_ & s' & Ha & _ & ->).
      destruct (attempt_backoff _ s' Ha) as [_ HN]. cbn [entry wait] in HN.
      destruct (Next_small_step (bk c) _ 0 _ Hbase Hint
                  ltac:(lia) ltac:(int_unfold; lia) HN) as (H1 & H2 & H3).
      cbn [next_try wait]. change (3 ^ Z.of_nat 0) with 1. lia.
    - destruct (run (S k) c maxTries (entry rq w rnd)) as [s0 | |] eqn:Hs0;
        try discriminate.
      specialize (IH s0 eq_refl).
      apply iteration_running_inv in Hrun as (_ & s' & Ha & _ & ->).
      destruct (attempt_backoff _ s' Ha) as [_ HN].
      destruct (Next_small_step (bk c) _ (wait s0) _ Hbase Hint
                  ltac:(lia) ltac:(lia) HN) as (H1 & H2 & H3).
      cbn [next_try wait].
      replace (BaseSleep (bk c) * 3 ^ Z.of_nat (S k))
        with (3 * (BaseSleep (bk c) * 3 ^ Z.of_nat k))
        by (rewrite Nat2Z.inj_succ, Z.pow_succ_r by lia; ring).
      lia. }
  intro Hrun. specialize (Hwait n s Hrun). split; [exact Hwait |].
  intros s' Ha. destruct (attempt_backoff s s' Ha) as [-> _].
  cbn [hd_error]. f_equal. unfold GoInt.mul. apply wrap_id.
  unfold Millisecond in *. int_unfold. nia.
Qed.

End Do_backoff.

Lemma Do_sleeps_once_per_request_witness :
  exists o,
    Do 6 (NewClient (Fixtures.always_status 500) []) Fixtures.get_request 5 0
       (fun n => Z.of_nat n * 7919 + 13) = Returned o /\
    List.length (slept (o_env o)) = 5%nat /\
    exists rest, slept (o_env o) = rest ++ [0].
Proof.
  eexists. split; [vm_compute; reflexivity |].
  split; [reflexivity |].
  refine (proj2 (Do_sleeps_once_per_request
                   (NewClient (Fixtures.always_status 500) []) 5
                   Fixtures.get_request 0
                   (fun n => Z.of_nat n * 7919 + 13) 6 _ _) _);
    [vm_compute; reflexivity | discriminate].
Defined.

Lemma Do_backoff_schedule_witness :
  exists s,
    run 3 (NewClient (Fixtures.always_status 500) []) 5
        (entry Fixtures.get_request 0 (fun n => Z.of_nat n * 7919 + 13))
      = Running s /\
    100 <= wait s <= 900.
Proof.
  eexists. split; [vm_compute; reflexivity |].
  refine (proj1 (Do_backoff_schedule
                   (NewClient (Fixtures.always_status 500) []) 5
                   Fixtures.get_request 0
                   (fun n => Z.of_nat n * 7919 + 13) 2 _ _ _ _ _));
    [cbn; lia | cbn; lia | int_lit | vm_compute; reflexivity].
Defined.

(** ** Response bodies are closed *)

Section Balance.

Context {W B R : Type}.

(** Two readings of the world: how many response bodies the transport
    has handed out so far, and how many have been closed. *)
Variable opened closed : W -> Z.
Variable c : client W B R.

Hypothesis Do_counts :
  forall rq w,
    let rt := fst (cl_Do (cl c) rq w) in
    let w' := snd (cl_Do (cl c) rq w) in
    closed w' = closed w /\
    opened w' = opened w + match rt with
                           | Answered _ | Failed (Some _) _ => 1
                           | Failed None _ => 0
                           end.

Hypothesis ReadAll_counts :
  forall r w,
    opened (snd (ReadAll (cl c) r w)) = opened w /\
    closed (snd (ReadAll (cl c) r w)) = closed w.

Hypothesis Close_counts :
  forall r w,
    opened (Close (cl c) r w) = opened w /\
    closed (Close (cl c) r w) = closed w + 1.

Lemma RequestWithClose_counts (rq : Request W B) (w : W) :
  opened (snd (RequestWithClose (cl c) rq w))
    - closed (snd (RequestWithClose (cl c) rq w))
  = opened w - closed w.
Proof.
  unfold RequestWithClose. pose proof (Do_counts rq w) as Hdo. cbv zeta in Hdo.
  destruct (cl_Do (cl c) rq w) as [[resp | [resp |] e] w1];
    cbn [fst snd] in *.
  - pose proof (ReadAll_counts (RespBody resp) w1) as Hread.
    destruct (ReadAll (cl c) (RespBody resp) w1) as [[bs e] w2].
    cbn [fst snd] in *.
    destruct (Close_counts (RespBody resp) w2). lia.
  - destruct (Close_counts (RespBody resp) w1). lia.
  - lia.
Qed.

(** X11. [RequestWithClose] closes the response body whenever the client
    hands one back, with or without an error, and closes nothing
    otherwise: the number of bodies open is the same after the call as
    before. *)
Theorem RequestWithClose_balanced (rq : Request W B) (w : W) :
  opened (snd (RequestWithClose (cl c) rq w))
    - closed (snd (RequestWithClose (cl c) rq w))
  = opened w - closed w.
Proof. apply RequestWithClose_counts. Qed.

(** X12. Provided the request's [GetBody] opens and closes no response
    body, no response body is left open when [Do] returns, however many
    attempts were made and however each of them ended. *)
Theorem Do_balanced (maxTries : Z) (rq : Request W B) (w : W)
  (rnd : nat -> Z) (fuel : nat) (o : outcome W B) :
  (forall get w1,
     GetBody rq = Some get ->
     opened (snd (get w1)) = opened w1 /\
     closed (snd (get w1)) = closed w1) ->
  Do fuel c rq maxTries w rnd = Returned o ->
  opened (world (o_env o)) - closed (world (o_env o))
  = opened w - closed w.
Proof.
  intros Hget HDo.
  assert (Hattempt : forall s s',
            GetBody (req s) = GetBody rq ->
            attempt c s = Some s' ->
            opened (world (env s')) - closed (world (env s'))
            = opened (world (env s)) - closed (world (env s))).
  { intros s s' Hg Ha.
    destruct (attempt_inv c s) as (s1 & w1 & Ha' & _ & Hreset & Hsend & _).
    assert (s1 = s') by congruence. subst s1.
    pose proof (RequestWithClose_counts (req s') w1) as Hbal.
    rewrite Hsend in Hbal. cbn [snd] in Hbal. rewrite Hbal.
    unfold reset_body in Hreset.
    destruct (Body (req s)); [| injection Hreset as _ <-; reflexivity].
    destruct (GetBody (req s)) as [get |] eqn:Hgs;
      [| injection Hreset as _ <-; reflexivity].
    destruct (tries s >? 1); [| injection Hreset as _ <-; reflexivity].
    destruct (Hget get (world (env s)) ltac:(congruence)) as [Ho Hc].
    destruct (get (world (env s))) as [[b' e'] w'].
    injection Hreset as _ <-. cbn [snd] in *. lia. }
  assert (Hinv : forall n s,
            run n c maxTries (entry rq w rnd) = Running s ->
            opened (world (env s)) - closed (world (env s))
            = opened w - closed w).
  { intros n s Hrun. revert n s Hrun.
    induction n as [| n IH]; intros s Hrun.
    - injection Hrun as <-. reflexivity.
    - rewrite run_last in Hrun.
      destruct (run n c maxTries (entry rq w rnd)) as [s0 | |] eqn:Hs0;
        try discriminate.
      apply iteration_running_inv in Hrun as (_ & s' & Ha & _ & ->).
      cbn [next_try env].
      rewrite (Hattempt s0 s'); [now apply IH | | exact Ha].
      apply (reachable_request c maxTries rq w rnd n s0 Hs0). }
  apply run_returned_inv in HDo as (m & s & _ & Hrun & Hit).
  apply iteration_returned_inv in Hit as [[_ ->] | (_ & s' & Ha & _ & ->)];
    cbn [returning o_env].
  - now apply (Hinv m).
  - rewrite (Hattempt s s'); [now apply (Hinv m) | | exact Ha].
    apply (reachable_request c maxTries rq w rnd m s Hrun).
Qed.

End Balance.

Lemma flaky_Do_counts {B : Type} (n : Z) (rq : Request Tracking.counters B)
  (w : Tracking.counters) :
  let rt := fst (cl_Do (Tracking.flaky n) rq w) in
  let w' := snd (cl_Do (Tracking.flaky n) rq w) in
  Tracking.closed w' = Tracking.closed w /\
  Tracking.opened w' = Tracking.opened w +
    match rt with
    | Answered _ | Failed (Some _) _ => 1
    | Failed None _ => 0
    end.
Proof.
  cbn. destruct (Tracking.served w <? n); [split; reflexivity |].
  destruct (Tracking.served w =? n); split; reflexivity.
Qed.

Lemma RequestWithClose_balanced_witness :
  Tracking.opened
    (snd (RequestWithClose (Tracking.flaky 0) Tracking.fragile_post
            Tracking.fresh))
  - Tracking.closed
      (snd (RequestWithClose (Tracking.flaky 0) Tracking.fragile_post
              Tracking.fresh))
  = 0.
Proof.
  apply (RequestWithClose_balanced Tracking.opened Tracking.closed
           (NewClient (Tracking.flaky 0) [])
           (flaky_Do_counts 0)
           (fun r w => conj eq_refl eq_refl)
           (fun r w => conj eq_refl eq_refl)
           Tracking.fragile_post Tracking.fresh).
Defined.

Lemma Do_balanced_witness :
  exists o,
    Do 6 (NewClient (Tracking.flaky 2) []) Tracking.fragile_post 5
       Tracking.fresh Fixtures.no_jitter = Returned o /\
    Tracking.opened (world (o_env o)) = 5 /\
    Tracking.opened (world (o_env o)) - Tracking.closed (world (o_env o)) = 0.
Proof.
  eexists. split; [vm_compute; reflexivity |].
  split; [reflexivity |].
  apply (Do_balanced Tracking.opened Tracking.closed
           (NewClient (Tracking.flaky 2) [])
           (flaky_Do_counts 2)
           (fun r w => conj eq_refl eq_refl)
           (fun r w => conj eq_refl eq_refl)
           5 Tracking.fragile_post Tracking.fresh Fixtures.no_jitter 6).
  - intros get w1 [= <-]. cbn.
    destruct (Tracking.served w1 <? 2); split; reflexivity.
  - vm_compute. reflexivity.
Defined.

(** ** [TimeoutOnly] against the default mode *)

Section Modes.

Context {W B R : Type}.
Variable c : client W B R.
Variable maxTries : Z.

Lemma run_sent_grows (n : nat) (s : loop_state W B) (o : outcome W B) :
  run n c maxTries s = Returned o ->
  exists extra, sent (o_env o) = extra ++ sent (env s).
Proof.
  revert s. induction n as [| n IH]; intros s Hrun; [discriminate |].
  cbn [run] in Hrun.
  destruct (iteration c maxTries s) as [s1 | o1 |] eqn:Hit; try discriminate.
  - apply iteration_running_inv in Hit as (_ & s' & Ha & _ & ->).
    destruct (IH _ Hrun) as [extra Hextra]. cbn [next_try env] in Hextra.
    rewrite (attempt_sent c _ _ Ha) in Hextra.
    exists (extra ++ [(req s', res s')]). rewrite <- app_assoc. exact Hextra.
  - injection Hrun as ->.
    apply iteration_returned_inv in Hit as [[_ ->] | (_ & s' & Ha & _ & ->)];
      cbn [returning o_env].
    + now exists [].
    + rewrite (attempt_sent c _ _ Ha). now exists [(req s', res s')].
Qed.

Lemma TimeoutOnly_verdict (r : Result) :
  retry_verdict (TimeoutOnly c) r = true -> retry_verdict c r = true.
Proof.
  unfold retry_verdict. cbn [TimeoutOnly timeoutOnly].
  destruct (err r) as [e |]; [| auto].
  cbn [negb orb]. intros ->. apply orb_true_r.
Qed.

Lemma TimeoutOnly_fatal (r : Result) :
  retry_verdict (TimeoutOnly c) r = false ->
  retry_verdict c r = true ->
  exists e, err r = Some e /\ IsTimeoutErr (Some e) = false.
Proof.
  unfold retry_verdict. cbn [TimeoutOnly timeoutOnly].
  destruct (err r) as [e |]; [| congruence].
  cbn [negb orb]. intros H _. eauto.
Qed.

Lemma run_TimeoutOnly (fuel : nat) :
  forall (s : loop_state W B) (o : outcome W B),
  run fuel c maxTries s = Returned o ->
  exists o',
    run fuel (TimeoutOnly c) maxTries s = Returned o' /\
    (o' = o \/
     exists e extra,
       err (o_res o') = Some e /\
       IsTimeoutErr (Some e) = false /\
       sent (o_env o) = extra ++ sent (o_env o')).
Proof.
  induction fuel as [| fuel IH]; intros s o Hrun; [discriminate |].
  cbn [run] in *.
  destruct (attempt_total c s) as [s' Ha].
  assert (Ha' : attempt (TimeoutOnly c) s = Some s') by exact Ha.
  destruct (Z.le_gt_cases (tries s) maxTries) as [Hle | Hgt].
  - destruct (retry_verdict c (res s')) eqn:Hv.
    + rewrite (iteration_retry c maxTries s s' Hle Ha Hv) in Hrun.
      destruct (retry_verdict (TimeoutOnly c) (res s')) eqn:Hv'.
      * rewrite (iteration_retry (TimeoutOnly c) maxTries s s' Hle Ha' Hv').
        now apply IH.
      * rewrite (iteration_stop (TimeoutOnly c) maxTries s s' Hle Ha' Hv').
        eexists. split; [reflexivity |]. right.
        destruct (TimeoutOnly_fatal _ Hv' Hv) as (e & He & Hfatal).
        destruct (run_sent_grows _ _ _ Hrun) as [extra Hextra].
        exists e, extra. cbn [returning o_res o_env]. auto.
    + rewrite (iteration_stop c maxTries s s' Hle Ha Hv) in Hrun.
      injection Hrun as <-.
      assert (Hv' : retry_verdict (TimeoutOnly c) (res s') = false).
      { destruct (retry_verdict (TimeoutOnly c) (res s')) eqn:E; auto.
        apply TimeoutOnly_verdict in E. congruence. }
      rewrite (iteration_stop (TimeoutOnly c) maxTries s s' Hle Ha' Hv').
      eauto.
  - rewrite (iteration_exit c maxTries s Hgt) in Hrun.
    injection Hrun as <-.
    rewrite (iteration_exit (TimeoutOnly c) maxTries s Hgt). eauto.
Qed.

(** X13. [TimeoutOnly] only ever cuts a call short.  When the call
    returns with a client, it returns (no later) with the same client
    under [TimeoutOnly], and then either with the very same outcome, or
    with a non-timeout error after issuing an initial part of the same
    requests. *)
Theorem TimeoutOnly_stops_no_later
  (rq : Request W B) (w : W) (rnd : nat -> Z)
  (fuel : nat) (o : outcome W B) :
  Do fuel c rq maxTries w rnd = Returned o ->
  exists o',
    Do fuel (TimeoutOnly c) rq maxTries w rnd = Returned o' /\
    (o' = o \/
     exists e extra,
       err (o_res o') = Some e /\
       IsTimeoutErr (Some e) = false /\
       sent (o_env o) = extra ++ sent (o_env o')).
Proof. apply run_TimeoutOnly. Qed.

End Modes.

Lemma TimeoutOnly_stops_no_later_witness :
  exists o o',
    Do 6 (NewClient (Tracking.flaky 2) []) Tracking.plain_get 5
       Tracking.fresh Fixtures.no_jitter = Returned o /\
    Do 6 (TimeoutOnly (NewClient (Tracking.flaky 2) [])) Tracking.plain_get 5
       Tracking.fresh Fixtures.no_jitter = Returned o' /\
    o_tries o = 5 /\ o_tries o' = 3 /\
    (o' = o \/
     exists e extra,
       err (o_res o') = Some e /\
       IsTimeoutErr (Some e) = false /\
       sent (o_env o) = extra ++ sent (o_env o')).
Proof.
  assert (H : exists o,
    Do 6 (NewClient (Tracking.flaky 2) []) Tracking.plain_get 5
       Tracking.fresh Fixtures.no_jitter = Returned o /\ o_tries o = 5).
  { eexists. split; [vm_compute; reflexivity | reflexivity]. }
  destruct H as (o & HDo & Ht).
  destruct (TimeoutOnly_stops_no_later
              (NewClient (Tracking.flaky 2) []) 5 Tracking.plain_get
              Tracking.fresh Fixtures.no_jitter 6 o HDo)
    as (o' & HDo' & Hcases).
  exists o, o'. repeat split; try assumption.
  vm_compute in HDo'. injection HDo' as <-. reflexivity.
Defined.

(** ** [NewClient] and its options *)

Section Options.

Context {W B R : Type}.

Lemma options_timeoutOnly (calls : list (option_call W B R))
  (c0 : client W B R) :
  timeoutOnly (fold_left (fun c op => op c) (map to_option calls) c0)
  = timeoutOnly c0 || existsb is_TimeoutOnly calls.
Proof.
  revert c0. induction calls as [| k calls IH]; intro c0; cbn [map fold_left].
  - cbn. now rewrite orb_false_r.
  - rewrite IH. destruct k; cbn; auto using orb_true_r.
Qed.

Lemma options_bk_kept (calls : list (option_call W B R)) (c0 : client W B R) :
  forallb (fun k => negb (is_WithBackoff k)) calls = true ->
  bk (fold_left (fun c op => op c) (map to_option calls) c0) = bk c0.
Proof.
  revert c0. induction calls as [| k calls IH]; intros c0 H;
    cbn [map fold_left]; [reflexivity |].
  cbn [forallb] in H. apply andb_true_iff in H as [Hk H].
  rewrite IH by exact H. now destruct k.
Qed.

Lemma options_cl_kept (calls : list (option_call W B R)) (c0 : client W B R) :
  forallb (fun k => negb (is_WithHTTPClient k)) calls = true ->
  cl (fold_left (fun c op => op c) (map to_option calls) c0) = cl c0.
Proof.
  revert c0. induction calls as [| k calls IH]; intros c0 H;
    cbn [map fold_left]; [reflexivity |].
  cbn [forallb] in H. apply andb_true_iff in H as [Hk H].
  rewrite IH by exact H. now destruct k.
Qed.

(** X14. [NewClient] applies its options from left to right over the
    defaults: the client retries on timeouts only exactly when
    [TimeoutOnly()] is among the options; its [Backoff] is that of the
    last [WithBackoff], or [Backoff{100, 5000}] when there is none; its
    [http.Client] is that of the last [WithHTTPClient], or the default
    one when there is none. *)
Theorem NewClient_options (dflt : HTTPClient W B R)
  (calls : list (option_call W B R)) :
  let c := NewClient dflt (map to_option calls) in
  timeoutOnly c = existsb is_TimeoutOnly calls /\
  (forallb (fun k => negb (is_WithBackoff k)) calls = true ->
   bk c = {| BaseSleep := 100; MaxSleep := 5000 |}) /\
  (forall pre b post,
     calls = pre ++ CallWithBackoff b :: post ->
     forallb (fun k => negb (is_WithBackoff k)) post = true ->
     bk c = b) /\
  (forallb (fun k => negb (is_WithHTTPClient k)) calls = true ->
   cl c = dflt) /\
  (forall pre h post,
     calls = pre ++ CallWithHTTPClient h :: post ->
     forallb (fun k => negb (is_WithHTTPClient k)) post = true ->
     cl c = h).
Proof.
  cbv zeta. unfold NewClient. repeat split.
  - now rewrite options_timeoutOnly.
  - intro H. now rewrite options_bk_kept.
  - intros pre b post -> H.
    rewrite map_app, fold_left_app. cbn [map fold_left].
    now rewrite options_bk_kept.
  - intro H. now rewrite options_cl_kept.
  - intros pre h post -> H.
    rewrite map_app, fold_left_app. cbn [map fold_left].
    now rewrite options_cl_kept.
Qed.

End Options.

(** The client of [TestClientOptions]. *)
Example NewClient_of_the_tests :
  let c := NewClient (Fixtures.always_status (B:=unit) 200)
             [TimeoutOnly;
              WithHTTPClient (Fixtures.always_status 500);
              WithBackoff {| BaseSleep := 100; MaxSleep := 200 |}] in
  timeoutOnly c = true /\
  bk c = {| BaseSleep := 100; MaxSleep := 200 |} /\
  cl c = Fixtures.always_status 500.
Proof. repeat split. Qed.

(** ** The semaphore, used by one goroutine *)

Lemma granted_cons (a : Semaphore.answer) (l : list Semaphore.answer) :
  Semaphore.granted (a :: l)
  = (match a with Semaphore.Obtained true => 1 | _ => 0 end)
    + Semaphore.granted l.
Proof.
  unfold Semaphore.granted. cbn [filter].
  destruct a as [[|] | [|] |]; cbn [List.length]; lia.
Qed.

Lemma given_back_cons (a : Semaphore.answer) (l : list Semaphore.answer) :
  Semaphore.given_back (a :: l)
  = (match a with Semaphore.Released true => 1 | _ => 0 end)
    + Semaphore.given_back l.
Proof.
  unfold Semaphore.given_back. cbn [filter].
  destruct a as [[|] | [|] |]; cbn [List.length]; lia.
Qed.

Lemma play_counts (calls : list Semaphore.call) :
  forall (s s' : Semaphore.semaphore) (answers : list Semaphore.answer),
  0 <= Semaphore.sem_len s <= Semaphore.sem_cap s ->
  Semaphore.play calls s = (answers, s') ->
  Semaphore.sem_len s'
  = Semaphore.sem_len s + Semaphore.granted answers
    - Semaphore.given_back answers /\
  0 <= Semaphore.sem_len s' <= Semaphore.sem_cap s' /\
  Semaphore.sem_cap s' = Semaphore.sem_cap s.
Proof.
  induction calls as [| k calls IH]; intros s s' answers Hs Hplay.
  - injection Hplay as <- <-. cbn. lia.
  - destruct k as [done pick | |]; cbn [Semaphore.play] in Hplay.
    + destruct (Semaphore.Obtain s done pick) as [[ok |] s1] eqn:Hob.
      * destruct (Semaphore.play calls s1) as [answers1 s2] eqn:Hrest.
        injection Hplay as <- <-.
        rewrite granted_cons, given_back_cons.
        unfold Semaphore.Obtain in Hob.
        destruct (Semaphore.closed s);
          [| destruct (Z.ltb_spec (Semaphore.sem_len s) (Semaphore.sem_cap s));
             destruct done, pick; try discriminate ];
          injection Hob as <- <-;
          (eapply IH in Hrest; [| cbn; lia]);
          destruct Hrest as (H1 & H2 & H3);
          cbn [Semaphore.sem_len Semaphore.sem_cap] in *; lia.
      * injection Hplay as <- <-.
        unfold Semaphore.Obtain in Hob.
        destruct (Semaphore.closed s); [discriminate |].
        destruct (Semaphore.sem_len s <? Semaphore.sem_cap s);
          destruct done, pick; try discriminate;
          injection Hob as <-; cbn; lia.
    + destruct (Semaphore.Release s) as [ok s1] eqn:Hrel.
      destruct (Semaphore.play calls s1) as [answers1 s2] eqn:Hrest.
      injection Hplay as <- <-.
      rewrite granted_cons, given_back_cons.
      unfold Semaphore.Release in Hrel.
      destruct (Z.ltb_spec 0 (Semaphore.sem_len s));
        injection Hrel as <- <-;
        (eapply IH in Hrest; [| cbn; lia]);
        destruct Hrest as (H1 & H2 & H3);
          cbn [Semaphore.sem_len Semaphore.sem_cap] in *; lia.
    + destruct (IH (Semaphore.Close s) s' answers Hs Hplay) as (H1 & H2 & H3).
      cbn [Semaphore.Close Semaphore.sem_len Semaphore.sem_cap] in *. lia.
Qed.

(** X15. Accounting.  Starting from [NewSemaphore(n)], after any
    sequence of [Obtain], [Release] and [Close] calls made one after the
    other, [Count] is the number of [Obtain]s that answered true minus
    the number of [Release]s that answered true, it lies between 0 and
    [Capacity], and [Capacity] is still [n]: no more than [n] resources
    are ever held. *)
Theorem semaphore_accounting (n : Z) (s0 s : Semaphore.semaphore)
  (calls : list Semaphore.call) (answers : list Semaphore.answer) :
  Semaphore.NewSemaphore n = Some s0 ->
  Semaphore.play calls s0 = (answers, s) ->
  Semaphore.Count s
  = Semaphore.granted answers - Semaphore.given_back answers /\
  0 <= Semaphore.Count s <= Semaphore.Capacity s /\
  Semaphore.Capacity s = n.
Proof.
  unfold Semaphore.NewSemaphore. intros Hnew Hplay.
  destruct (Z.ltb_spec n 0); [discriminate |]. injection Hnew as <-.
  apply play_counts in Hplay; [| cbn; lia].
  destruct Hplay as (H1 & H2 & H3).
  unfold Semaphore.Count, Semaphore.Capacity.
  cbn [Semaphore.sem_len Semaphore.sem_cap] in *. lia.
Qed.

(** The calls of [TestSemaphore_ObtainRelease], and their answers. *)
Lemma semaphore_accounting_witness :
  let calls :=
    [Semaphore.CallRelease;
     Semaphore.CallObtain Semaphore.NeverDone true;
     Semaphore.CallObtain Semaphore.NeverDone true;
     Semaphore.CallObtain Semaphore.DoneLater true;
     Semaphore.CallRelease;
     Semaphore.CallObtain Semaphore.NeverDone true;
     Semaphore.CallClose;
     Semaphore.CallObtain Semaphore.NeverDone true] in
  let s0 := {| Semaphore.sem_len := 0; Semaphore.sem_cap := 2;
               Semaphore.closed := false |} in
  exists s,
    Semaphore.play calls s0
    = ([Semaphore.Released false; Semaphore.Obtained true;
        Semaphore.Obtained true; Semaphore.Obtained false;
        Semaphore.Released true; Semaphore.Obtained true;
        Semaphore.Obtained false], s) /\
    Semaphore.Count s = 2 /\ Semaphore.Capacity s = 2.
Proof.
  intros calls s0. eexists. split; [reflexivity |].
  destruct (semaphore_accounting 2 s0 _ calls _ eq_refl eq_refl)
    as (Hcount & _ & Hcap).
  split; [exact Hcount | exact Hcap].
Defined.

Lemma play_closed (calls : list Semaphore.call) :
  forall (s s' : Semaphore.semaphore) (answers : list Semaphore.answer),
  Semaphore.closed s = true ->
  Semaphore.play calls s = (answers, s') ->
  Semaphore.closed s' = true /\
  Semaphore.granted answers = 0 /\
  ~ In Semaphore.Stuck answers /\
  Semaphore.sem_len s' = Semaphore.sem_len s - Semaphore.given_back answers.
Proof.
  induction calls as [| k calls IH]; intros s s' answers Hs Hplay.
  - injection Hplay as <- <-. cbn. repeat split; auto; lia.
  - destruct k as [done pick | |]; cbn [Semaphore.play] in Hplay.
    + unfold Semaphore.Obtain in Hplay. rewrite Hs in Hplay.
      destruct (Semaphore.play calls s) as [answers1 s2] eqn:Hrest.
      injection Hplay as <- <-.
      destruct (IH _ _ _ Hs Hrest) as (H1 & H2 & H3 & H4).
      rewrite granted_cons, given_back_cons.
      repeat split; auto; try lia.
      intros [Hin | Hin]; [discriminate | auto].
    + destruct (Semaphore.Release s) as [ok s1] eqn:Hrel.
      destruct (Semaphore.play calls s1) as [answers1 s2] eqn:Hrest.
      injection Hplay as <- <-.
      rewrite granted_cons, given_back_cons.
      unfold Semaphore.Release in Hrel.
      destruct (0 <? Semaphore.sem_len s); injection Hrel as <- <-;
        (eapply IH in Hrest; [| exact Hs]);
        destruct Hrest as (H1 & H2 & H3 & H4);
        cbn [Semaphore.sem_len] in *;
        (repeat split; auto; try lia;
         intros [Hin | Hin]; [discriminate | auto]).
    + apply (IH (Semaphore.Close s)); [reflexivity | exact Hplay].
Qed.

(** X16. Once closed, closed for good.  After [Close], whatever calls
    follow, [Closed] stays true, every [Obtain] answers false at once
    (none is granted, none blocks), and [Release] goes on giving back
    what is queued: [Count] only goes down. *)
Theorem semaphore_closed_for_good (s s' : Semaphore.semaphore)
  (calls : list Semaphore.call) (answers : list Semaphore.answer) :
  Semaphore.play calls (Semaphore.Close s) = (answers, s') ->
  Semaphore.Closed s' = true /\
  Semaphore.granted answers = 0 /\
  ~ In Semaphore.Stuck answers /\
  Semaphore.Count s' = Semaphore.Count s - Semaphore.given_back answers.
Proof.
  intro Hplay. apply (play_closed calls (Semaphore.Close s)); auto.
Qed.

Lemma semaphore_closed_for_good_witness :
  let calls :=
    [Semaphore.CallObtain Semaphore.NeverDone true;
     Semaphore.CallRelease;
     Semaphore.CallObtain Semaphore.AlreadyDone true] in
  let s := {| Semaphore.sem_len := 1; Semaphore.sem_cap := 2;
              Semaphore.closed := false |} in
  exists s',
    Semaphore.play calls (Semaphore.Close s)
    = ([Semaphore.Obtained false; Semaphore.Released true;
        Semaphore.Obtained false], s') /\
    Semaphore.Closed s' = true /\ Semaphore.Count s' = 0.
Proof.
  intros calls s. eexists. split; [reflexivity |].
  destruct (semaphore_closed_for_good s _ calls _ eq_refl)
    as (Hclosed & _ & _ & Hcount).
  split; [exact Hclosed | exact Hcount].
Defined.

(** X17. Round trip.  A resource obtained can be given back at once:
    when [Obtain] answers true, the [Release] that follows answers true
    as well and leaves the semaphore exactly as it was before the
    [Obtain]. *)
Theorem Obtain_Release_round_trip (s s' : Semaphore.semaphore)
  (done : Semaphore.done_channel) (pick : bool) :
  0 <= Semaphore.Count s ->
  Semaphore.Obtain s done pick = (Some true, s') ->
  Semaphore.Count s' = Semaphore.Count s + 1 /\
  Semaphore.Release s' = (true, s).
Proof.
  unfold Semaphore.Count, Semaphore.Obtain, Semaphore.Release.
  intros Hs Hob. destruct s as [len cap cl]. cbn in *.
  destruct cl; [discriminate |].
  destruct (len <? cap); destruct done, pick; try discriminate;
    injection Hob as <-; cbn;
    (destruct (Z.ltb_spec 0 (len + 1)); [| lia]);
    (split; [reflexivity |]);
    do 2 f_equal; lia.
Qed.

Lemma Obtain_Release_round_trip_witness :
  let s := {| Semaphore.sem_len := 1; Semaphore.sem_cap := 2;
              Semaphore.closed := false |} in
  exists s',
    Semaphore.Obtain s Semaphore.DoneLater false = (Some true, s') /\
    Semaphore.Count s' = 2 /\
    Semaphore.Release s' = (true, s).
Proof.
  intro s. eexists. split; [reflexivity |].
  exact (Obtain_Release_round_trip s _ Semaphore.DoneLater false
           ltac:(cbn; lia) eq_refl).
Defined.

(** ** [GetLocalIP] *)

(** X18. [GetLocalIP] reports the first address, in the order of
    [net.InterfaceAddrs], that is an [IPNet], is not a loopback address
    and has an IPv4 form; addresses before it are skipped and addresses
    after it are not looked at.  It gives the empty string when
    [net.InterfaceAddrs] fails or when no address is of that kind. *)
Theorem GetLocalIP_first_reportable (IP : Type) (IsLoopback : IP -> bool)
  (To4 : IP -> option IP) (IP_String : IP -> string) :
  (forall e, GetLocalIP IP IsLoopback To4 IP_String (inr e) = EmptyString) /\
  (forall addrs,
     forallb (fun a => negb (reportable IP IsLoopback To4 a)) addrs = true ->
     GetLocalIP IP IsLoopback To4 IP_String (inl addrs) = EmptyString) /\
  (forall pre ip post,
     forallb (fun a => negb (reportable IP IsLoopback To4 a)) pre = true ->
     reportable IP IsLoopback To4 (IPNetAddr ip) = true ->
     GetLocalIP IP IsLoopback To4 IP_String
       (inl (pre ++ IPNetAddr ip :: post)) = IP_String ip).
Proof.
  assert (Hskip : forall pre rest,
            forallb (fun a => negb (reportable IP IsLoopback To4 a)) pre = true ->
            scan_addrs IP IsLoopback To4 IP_String (pre ++ rest)
            = scan_addrs IP IsLoopback To4 IP_String rest).
  { induction pre as [| a pre IH]; intros rest H; [reflexivity |].
    cbn [forallb] in H. apply andb_true_iff in H as [Ha H].
    cbn [app scan_addrs]. destruct a as [ip |]; [| now apply IH].
    cbn [reportable] in Ha.
    destruct (IsLoopback ip); cbn [negb] in *; [now apply IH |].
    destruct (To4 ip); [discriminate | now apply IH]. }
  split; [reflexivity |]. split.
  - intros addrs H. cbn [GetLocalIP].
    rewrite <- (app_nil_r addrs). now rewrite Hskip.
  - intros pre ip post Hpre Hip. cbn [GetLocalIP]. rewrite Hskip by exact Hpre.
    cbn [scan_addrs]. cbn [reportable] in Hip.
    destruct (IsLoopback ip); [discriminate |]. cbn [negb].
    destruct (To4 ip); [reflexivity | discriminate].
Qed.
